(** * TP-Link smart plug switch: the polling and retry state machine

    A shallow embedding of [homeassistant/components/tplink/switch.py]
    (class [SmartPlugSwitch]) and the properties of its refresh cycle.

    The entity mutates its own attributes, calls a blocking device client
    that may raise on every call, writes to a logger and sleeps between
    attempts.  All of this is modelled by one state-and-exception monad:
    a computation takes the current system state and returns a result
    (a value or a raised exception) together with the state it left behind.
    As in Python, the writes made before an exception is raised persist. *)

From Stdlib Require Import ZArith String List.
From Stdlib Require QArith.QArith_base.
From stdpp Require Import base option list gmap strings.

Local Open Scope Z_scope.
Local Open Scope string_scope.

(** ** Exceptions and outcomes *)

(** The exception classes the module distinguishes.  A constructor stands
    for the class and its subclasses, the way an [except] clause matches:
    [OSError] covers the socket and connection errors of the transport. *)
Inductive exn : Type :=
| SmartDeviceException
| OSError
| KeyError
| StopIteration
| TypeError
| OtherException.

(** What becomes of an evaluation: it returns a value, it raises, or it
    never completes (a blocking call that does not return, an await on a
    future that is never resolved). *)
Inductive result (A : Type) : Type :=
| Ok (a : A)
| Raise (e : exn)
| Hang.
Arguments Ok {A} a.
Arguments Raise {A} e.
Arguments Hang {A}.

Definition is_ok {A} (r : result A) : bool :=
  match r with Ok _ => true | _ => false end.

(** ** Python values

    The device answers in JSON; [sys_info] is the decoded object.  A dict
    with string keys is an association list read at its first matching
    key. *)
#[local] Unset Elimination Schemes.
Inductive pyval : Type :=
| PNone
| PBool (b : bool)
| PInt (z : Z)
| PFloat (q : QArith_base.Q)
| PStr (s : string)
| PList (l : list pyval)
| PDict (d : list (string * pyval)).
#[local] Set Elimination Schemes.

(** Truth value of an object, as [not self._sysinfo] tests it. *)
Definition truthy (v : pyval) : bool :=
  match v with
  | PNone => false
  | PBool b => b
  | PInt z => negb (Z.eqb z 0)
  | PFloat q => negb (QArith_base.Qeq_bool q (QArith_base.inject_Z 0))
  | PStr s => negb (bool_decide (s = ""))
  | PList l => match l with [] => false | _ => true end
  | PDict d => match d with [] => false | _ => true end
  end.

Fixpoint assoc (k : string) (d : list (string * pyval)) : option pyval :=
  match d with
  | [] => None
  | (k', v) :: d' => if bool_decide (k' = k) then Some v else assoc k d'
  end.

(** [v[k]] for a string key [k]. *)
Definition getitem (v : pyval) (k : string) : result pyval :=
  match v with
  | PDict d => match assoc k d with Some x => Ok x | None => Raise KeyError end
  | _ => Raise TypeError
  end.

(** The items a [for] clause draws from [v]. *)
Definition py_iter (v : pyval) : result (list pyval) :=
  match v with
  | PList l => Ok l
  | PDict d => Ok (map (λ kv, PStr (fst kv)) d)
  | PStr s => Ok (map (λ c, PStr (String c EmptyString)) (list_ascii_of_string s))
  | _ => Raise TypeError
  end.

(** [v == ctx] where [ctx] is the client's context: a string or [None]. *)
Definition py_eq_context (v : pyval) (ctx : option string) : bool :=
  match ctx, v with
  | None, PNone => true
  | Some s, PStr t => bool_decide (t = s)
  | _, _ => false
  end.

(** [v == n] for an integer literal [n]: booleans are the integers 0 and 1
    and a float equals the integer of the same value. *)
Definition py_eq_int (v : pyval) (n : Z) : bool :=
  match v with
  | PBool b => Z.eqb (if b then 1 else 0) n
  | PInt z => Z.eqb z n
  | PFloat q => QArith_base.Qeq_bool q (QArith_base.inject_Z n)
  | _ => false
  end.

(** [next(c for c in children if c["id"] == ctx)] once the items of
    [children] are drawn: the first item whose id matches; a lookup that
    raises on an earlier item raises out of [next]; an exhausted generator
    raises [StopIteration]. *)
Fixpoint next_child (ctx : option string) (items : list pyval) : result pyval :=
  match items with
  | [] => Raise StopIteration
  | c :: rest =>
      match getitem c "id" with
      | Ok i => if py_eq_context i ctx then Ok c else next_child ctx rest
      | Raise e => Raise e
      | Hang => Hang
      end
  end.

(** ** The device client (pyHS100's [SmartPlug])

    The client is a collaborator of the module: every property that
    queries the device and every command is a transition of the outside
    world [W] that returns a value or raises.  [host], [context] and
    [SWITCH_STATE_ON] are plain attributes.  The realtime reading is an
    object indexed by string keys whose lookup may itself raise. *)
Module SmartPlug.
Record client (W Num : Type) : Type := {
  host : string;
  context : option string;
  SWITCH_STATE_ON : string;
  sys_info : W → result pyval * W;
  mac : W → result string * W;
  model : W → result string * W;
  alias : W → result string * W;
  state : W → result string * W;
  has_emeter : W → result bool * W;
  get_emeter_realtime : W → result (string → result Num) * W;
  get_emeter_daily : W → result (gmap Z Num) * W;
  turn_on : W → result unit * W;
  turn_off : W → result unit * W;
}.
Arguments host {W Num} _.
Arguments context {W Num} _.
Arguments SWITCH_STATE_ON {W Num} _.
Arguments sys_info {W Num} _ _.
Arguments mac {W Num} _ _.
Arguments model {W Num} _ _.
Arguments alias {W Num} _ _.
Arguments state {W Num} _ _.
Arguments has_emeter {W Num} _ _.
Arguments get_emeter_realtime {W Num} _ _.
Arguments get_emeter_daily {W Num} _ _.
Arguments turn_on {W Num} _ _.
Arguments turn_off {W Num} _ _.
End SmartPlug.

(** What the module takes from its runtime and from the host platform:
    the day of the month read from the clock ([int(time.strftime("%e"))]),
    fixed-point formatting of a number (["{:.nf}".format(x)]) and the
    attribute names imported from [homeassistant]. *)
Record Runtime (W Num : Type) : Type := {
  day_of_month : W → Z;
  format_f : nat → Num → string;
  ATTR_CURRENT_POWER_W : string;
  ATTR_TODAY_ENERGY_KWH : string;
  ATTR_VOLTAGE : string;
}.
Arguments day_of_month {W Num} _ _.
Arguments format_f {W Num} _ _ _.
Arguments ATTR_CURRENT_POWER_W {W Num} _.
Arguments ATTR_TODAY_ENERGY_KWH {W Num} _.
Arguments ATTR_VOLTAGE {W Num} _.

Definition ATTR_TOTAL_ENERGY_KWH : string := "total_energy_kwh".
Definition ATTR_CURRENT_A : string := "current_a".

Definition MAX_ATTEMPTS : nat := 20%nat.
Definition SLEEP_TIME : Z := 2.

(** ** Observable effects *)

Inductive log_record : Type :=
| Retrying (delay : Z) (host : string) (alias : pyval) (ex : exn)
| CouldNotRead (host alias : pyval).

Inductive event : Type :=
| Warning (r : log_record)
| Sleep (t : Z).

(** ** The entity (class [SmartPlugSwitch]) *)
Module SmartPlugSwitch.

(** The instance attributes set by [__init__]. *)
Record entity : Type := {
  _sysinfo : pyval;
  _state : option bool;
  _available : bool;
  _emeter_params : gmap string string;
  _mac : pyval;
  _alias : pyval;
  _host : pyval;
  _model : pyval;
  _device_id : pyval;
  _is_ready : bool;
}.

Definition init : entity := {|
  _sysinfo := PNone;
  _state := None;
  _available := false;
  _emeter_params := ∅;
  _mac := PNone;
  _alias := PNone;
  _host := PNone;
  _model := PNone;
  _device_id := PNone;
  _is_ready := false;
|}.

(** Attribute assignments. *)
Definition set_sysinfo (v : pyval) (e : entity) : entity :=
  {| _sysinfo := v; _state := _state e; _available := _available e;
     _emeter_params := _emeter_params e; _mac := _mac e; _alias := _alias e;
     _host := _host e; _model := _model e; _device_id := _device_id e;
     _is_ready := _is_ready e |}.
Definition set_state (v : option bool) (e : entity) : entity :=
  {| _sysinfo := _sysinfo e; _state := v; _available := _available e;
     _emeter_params := _emeter_params e; _mac := _mac e; _alias := _alias e;
     _host := _host e; _model := _model e; _device_id := _device_id e;
     _is_ready := _is_ready e |}.
Definition set_available (v : bool) (e : entity) : entity :=
  {| _sysinfo := _sysinfo e; _state := _state e; _available := v;
     _emeter_params := _emeter_params e; _mac := _mac e; _alias := _alias e;
     _host := _host e; _model := _model e; _device_id := _device_id e;
     _is_ready := _is_ready e |}.
Definition set_emeter_param (k v : string) (e : entity) : entity :=
  {| _sysinfo := _sysinfo e; _state := _state e; _available := _available e;
     _emeter_params := <[k := v]> (_emeter_params e); _mac := _mac e;
     _alias := _alias e; _host := _host e; _model := _model e;
     _device_id := _device_id e; _is_ready := _is_ready e |}.
Definition set_mac (v : pyval) (e : entity) : entity :=
  {| _sysinfo := _sysinfo e; _state := _state e; _available := _available e;
     _emeter_params := _emeter_params e; _mac := v; _alias := _alias e;
     _host := _host e; _model := _model e; _device_id := _device_id e;
     _is_ready := _is_ready e |}.
Definition set_alias (v : pyval) (e : entity) : entity :=
  {| _sysinfo := _sysinfo e; _state := _state e; _available := _available e;
     _emeter_params := _emeter_params e; _mac := _mac e; _alias := v;
     _host := _host e; _model := _model e; _device_id := _device_id e;
     _is_ready := _is_ready e |}.
Definition set_host (v : pyval) (e : entity) : entity :=
  {| _sysinfo := _sysinfo e; _state := _state e; _available := _available e;
     _emeter_params := _emeter_params e; _mac := _mac e; _alias := _alias e;
     _host := v; _model := _model e; _device_id := _device_id e;
     _is_ready := _is_ready e |}.
Definition set_model (v : pyval) (e : entity) : entity :=
  {| _sysinfo := _sysinfo e; _state := _state e; _available := _available e;
     _emeter_params := _emeter_params e; _mac := _mac e; _alias := _alias e;
     _host := _host e; _model := v; _device_id := _device_id e;
     _is_ready := _is_ready e |}.
Definition set_device_id (v : pyval) (e : entity) : entity :=
  {| _sysinfo := _sysinfo e; _state := _state e; _available := _available e;
     _emeter_params := _emeter_params e; _mac := _mac e; _alias := _alias e;
     _host := _host e; _model := _model e; _device_id := v;
     _is_ready := _is_ready e |}.
Definition set_is_ready (v : bool) (e : entity) : entity :=
  {| _sysinfo := _sysinfo e; _state := _state e; _available := _available e;
     _emeter_params := _emeter_params e; _mac := _mac e; _alias := _alias e;
     _host := _host e; _model := _model e; _device_id := _device_id e;
     _is_ready := v |}.

(** The identity of the device as the host reads it. *)
Definition identity (e : entity) : pyval * pyval * pyval * pyval * pyval * pyval :=
  (_sysinfo e, _host e, _mac e, _model e, _alias e, _device_id e).

(** Read-only properties. *)
Definition unique_id (e : entity) : pyval := _device_id e.
Definition name (e : entity) : pyval := _alias e.
Definition available (e : entity) : bool := _available e.
Definition is_on (e : entity) : option bool := _state e.
Definition device_state_attributes (e : entity) : gmap string string :=
  _emeter_params e.

Section Machine.
Context {W Num : Type}.

(** The whole system: the entity, the outside world behind the client
    and the clock, and the log lines and sleeps so far (oldest first). *)
Record system : Type := {
  self : entity;
  world : W;
  trace : list event;
}.

Definition with_self (f : entity → entity) (σ : system) : system :=
  {| self := f (self σ); world := world σ; trace := trace σ |}.
Definition with_world (w : W) (σ : system) : system :=
  {| self := self σ; world := w; trace := trace σ |}.
Definition with_event (ev : event) (σ : system) : system :=
  {| self := self σ; world := world σ; trace := trace σ ++ [ev] |}.

(** *** The monad *)
Definition M (A : Type) : Type := system → result A * system.

Definition ret {A} (a : A) : M A := λ σ, (Ok a, σ).
Definition raise {A} (e : exn) : M A := λ σ, (Raise e, σ).
Definition bind {A B} (m : M A) (k : A → M B) : M B :=
  λ σ, match m σ with
       | (Ok a, σ') => k a σ'
       | (Raise e, σ') => (Raise e, σ')
       | (Hang, σ') => (Hang, σ')
       end.

(** [try: m except ...]: the handler chooses by the exception whether
    the clause matches; an exception no clause matches goes on. *)
Definition try_except {A} (m : M A) (h : exn → option (M A)) : M A :=
  λ σ, match m σ with
       | (Ok a, σ') => (Ok a, σ')
       | (Raise e, σ') =>
           match h e with
           | Some k => k σ'
           | None => (Raise e, σ')
           end
       | (Hang, σ') => (Hang, σ')
       end.

Definition lift {A} (r : result A) : M A := λ σ, (r, σ).
Definition get {A} (f : entity → A) : M A := λ σ, (Ok (f (self σ)), σ).
Definition modify (f : entity → entity) : M unit :=
  λ σ, (Ok tt, with_self f σ).
Definition call {A} (f : W → result A * W) : M A :=
  λ σ, let (r, w) := f (world σ) in (r, with_world w σ).
Definition observe {A} (f : W → A) : M A := λ σ, (Ok (f (world σ)), σ).
Definition emit (ev : event) : M unit := λ σ, (Ok tt, with_event ev σ).
End Machine.
Arguments system : clear implicits.
Arguments M : clear implicits.

Declare Scope py_scope.
Delimit Scope py_scope with py.
Notation "x <- m ;; k" := (bind m (λ x, k))
  (at level 100, m at next level, k at level 200, right associativity) : py_scope.
Notation "m ;; k" := (bind m (λ _, k))
  (at level 100, k at level 200, right associativity) : py_scope.
Local Open Scope py_scope.

Section Methods.
Context {W Num : Type}.
Variable plug : SmartPlug.client W Num.
Variable rt : Runtime W Num.

Local Abbreviation M := (SmartPlugSwitch.M W).

(** [_plug_from_context] *)
Definition _plug_from_context : M pyval :=
  info <- call (SmartPlug.sys_info plug) ;;
  children <- lift (getitem info "children") ;;
  items <- lift (py_iter children) ;;
  lift (next_child (SmartPlug.context plug) items).

(** [update_state] *)
Definition update_state : M unit :=
  match SmartPlug.context plug with
  | None =>
      st <- call (SmartPlug.state plug) ;;
      modify (set_state
                (Some (bool_decide (st = SmartPlug.SWITCH_STATE_ON plug))))
  | Some _ =>
      c <- _plug_from_context ;;
      v <- lift (getitem c "state") ;;
      modify (set_state (Some (py_eq_int v 1)))
  end.

(** [turn_on] *)
Definition turn_on : M unit := call (SmartPlug.turn_on plug).

(** [turn_off] *)
Definition turn_off : M unit :=
  call (SmartPlug.turn_off plug) ;;
  update_state.

(** The body of [if not self._sysinfo:] in [attempt_update]. *)
Definition resolve_identity : M unit :=
  info <- call (SmartPlug.sys_info plug) ;;
  modify (set_sysinfo info) ;;
  modify (set_host (PStr (SmartPlug.host plug))) ;;
  m <- call (SmartPlug.mac plug) ;;
  modify (set_mac (PStr m)) ;;
  md <- call (SmartPlug.model plug) ;;
  modify (set_model (PStr md)) ;;
  match SmartPlug.context plug with
  | None =>
      a <- call (SmartPlug.alias plug) ;;
      modify (set_alias (PStr a)) ;;
      m' <- get _mac ;;
      modify (set_device_id m')
  | Some c =>
      ch <- _plug_from_context ;;
      a <- lift (getitem ch "alias") ;;
      modify (set_alias a) ;;
      modify (set_device_id (PStr c))
  end.

(** [self._emeter_params[k] = "{:.nf}".format(readings[key])] *)
Definition store_reading (readings : string → result Num)
    (k : string) (digits : nat) (key : string) : M unit :=
  x <- lift (readings key) ;;
  modify (set_emeter_param k (format_f rt digits x)).

(** The inner [try] of [attempt_update]: today's entry of the daily
    statistics, skipped when the day is not a key. *)
Definition store_today (statics : gmap Z Num) : M unit :=
  try_except
    (day <- observe (day_of_month rt) ;;
     x <- lift (match statics !! day with
                | Some x => Ok x
                | None => Raise KeyError
                end) ;;
     modify (set_emeter_param (ATTR_TODAY_ENERGY_KWH rt) (format_f rt 3 x)))
    (λ ex, match ex with KeyError => Some (ret tt) | _ => None end).

(** The body of [if self.smartplug.has_emeter:]. *)
Definition update_emeter : M unit :=
  emeter_readings <- call (SmartPlug.get_emeter_realtime plug) ;;
  store_reading emeter_readings (ATTR_CURRENT_POWER_W rt) 2 "power" ;;
  store_reading emeter_readings ATTR_TOTAL_ENERGY_KWH 3 "total" ;;
  store_reading emeter_readings (ATTR_VOLTAGE rt) 1 "voltage" ;;
  store_reading emeter_readings ATTR_CURRENT_A 2 "current" ;;
  emeter_statics <- call (SmartPlug.get_emeter_daily plug) ;;
  store_today emeter_statics.

(** The body of the outer [try] of [attempt_update]. *)
Definition attempt_body : M unit :=
  info <- get _sysinfo ;;
  (if truthy info then ret tt else resolve_identity) ;;
  update_state ;;
  emeter <- call (SmartPlug.has_emeter plug) ;;
  (if emeter : bool then update_emeter else ret tt) ;;
  modify (set_is_ready true).

(** [except (SmartDeviceException, OSError)] *)
Definition recoverable (ex : exn) : bool :=
  match ex with
  | SmartDeviceException | OSError => true
  | _ => false
  end.

(** [attempt_update] *)
Definition attempt_update : M unit :=
  try_except attempt_body
    (λ ex, if recoverable ex
           then Some (a <- get _alias ;;
                      emit (Warning (Retrying SLEEP_TIME
                                       (SmartPlug.host plug) a ex)))
           else None).

(** [await self.hass.async_add_executor_job(job)]: the job runs in the
    executor and the await hands back its value or re-raises its
    exception, with one exception class apart: a [StopIteration] cannot be
    set on the future the coroutine awaits, so that future is never
    resolved and the await never completes.  Neither does it when the job
    itself never returns. *)
Definition async_add_executor_job {A} (job : M A) : M A :=
  λ σ, match job σ with
       | (Ok a, σ') => (Ok a, σ')
       | (Raise StopIteration, σ') => (Hang, σ')
       | (Raise e, σ') => (Raise e, σ')
       | (Hang, σ') => (Hang, σ')
       end.

(** [await asyncio.sleep(t)] *)
Definition sleep (t : Z) : M unit := emit (Sleep t).

(** The [else] clause of the loop of [async_update]. *)
Definition attempts_exhausted : M unit :=
  av <- get _available ;;
  (if av : bool
   then h <- get _host ;;
        a <- get _alias ;;
        emit (Warning (CouldNotRead h a))
   else ret tt) ;;
  modify (set_available false).

(** [for update_attempt in range(n): ... else: ...] *)
Fixpoint update_loop (n : nat) : M unit :=
  match n with
  | O => attempts_exhausted
  | S n' =>
      modify (set_is_ready false) ;;
      async_add_executor_job attempt_update ;;
      ready <- get _is_ready ;;
      if ready : bool
      then modify (set_available true)
      else sleep SLEEP_TIME ;; update_loop n'
  end.

(** [async_update] *)
Definition async_update : M unit := update_loop MAX_ATTEMPTS.

End Methods.
(** ** Runs of the machine *)
Section Runs.
Context {W Num : Type}.
Variable plug : SmartPlug.client W Num.
Variable rt : Runtime W Num.

(** One pass of the loop of [async_update] up to its test of
    [_is_ready]. *)
Definition one_attempt : M W unit :=
  modify (set_is_ready false) ;;
  async_add_executor_job (attempt_update plug rt).

(** The system after [k] passes that all returned with [_is_ready]
    unset, each followed by its sleep; [None] when one of them
    succeeded or raised. *)
Fixpoint failed_attempts (k : nat) (σ : system W) : option (system W) :=
  match k with
  | O => Some σ
  | S k' =>
      match one_attempt σ with
      | (Ok _, σ1) =>
          if _is_ready (self σ1) then None
          else failed_attempts k' (with_event (Sleep SLEEP_TIME) σ1)
      | (Raise _, _) | (Hang, _) => None
      end
  end.

(** What the host does with an entity, and the outside world moving
    on by itself between two calls. *)
Inductive operation : Type :=
| Refresh
| Attempt
| TurnOn
| TurnOff
| Elapse (w : W).

Definition run_op (o : operation) (σ : system W) : system W :=
  match o with
  | Refresh => (async_update plug rt σ).2
  | Attempt => (attempt_update plug rt σ).2
  | TurnOn => (turn_on plug σ).2
  | TurnOff => (turn_off plug σ).2
  | Elapse w => with_world w σ
  end.

(** A host that goes on after an exception, and past a refresh that
    never completes: the entity keeps the state the call left. *)
Definition run (ops : list operation) (σ : system W) : system W :=
  foldl (λ σ o, run_op o σ) σ ops.

(** The steps of [attempt_update] up to and including its call of
    [update_state]. *)
Definition refresh_state : M W unit :=
  info <- get _sysinfo ;;
  (if truthy info then ret tt else resolve_identity plug) ;;
  update_state plug.

(** The steps of [attempt_update] after its call of [update_state]. *)
Definition refresh_emeter : M W unit :=
  emeter <- call (SmartPlug.has_emeter plug) ;;
  (if emeter : bool then update_emeter plug rt else ret tt) ;;
  modify (set_is_ready true).

(** The attribute names the metering steps write besides today's. *)
Definition realtime_keys : list string :=
  [ATTR_CURRENT_POWER_W rt; ATTR_TOTAL_ENERGY_KWH; ATTR_VOLTAGE rt;
   ATTR_CURRENT_A].

(** A system with a fresh entity. *)
Definition start (w : W) : system W :=
  {| self := init; world := w; trace := [] |}.

(** The device never advertises metering. *)
Definition no_emeter : Prop :=
  ∀ w b w', SmartPlug.has_emeter plug w = (Ok b, w') → b = false.

(** No daily history the device hands out has an entry for the day
    the clock shows. *)
Definition no_today_entry : Prop :=
  ∀ w statics w',
    SmartPlug.get_emeter_daily plug w = (Ok statics, w') →
    statics !! day_of_month rt w' = None.

(** The record of the addressed outlet in a [sys_info] answer. *)
Definition child_of (info : pyval) : result pyval :=
  match getitem info "children" with
  | Ok children =>
      match py_iter children with
      | Ok items => next_child (SmartPlug.context plug) items
      | Raise e => Raise e
      | Hang => Hang
      end
  | Raise e => Raise e
  | Hang => Hang
  end.

(** A device that answers every query, with all the fields the entity
    reads. *)
Record responsive : Prop := {
  sys_info_ok : ∀ w, is_ok (SmartPlug.sys_info plug w).1 = true;
  mac_ok : ∀ w, is_ok (SmartPlug.mac plug w).1 = true;
  model_ok : ∀ w, is_ok (SmartPlug.model plug w).1 = true;
  alias_ok : ∀ w, is_ok (SmartPlug.alias plug w).1 = true;
  state_ok : ∀ w, is_ok (SmartPlug.state plug w).1 = true;
  has_emeter_ok : ∀ w, is_ok (SmartPlug.has_emeter plug w).1 = true;
  realtime_ok : ∀ w,
    match SmartPlug.get_emeter_realtime plug w with
    | (Ok readings, _) =>
        is_ok (readings "power") && is_ok (readings "total")
        && is_ok (readings "voltage") && is_ok (readings "current") = true
    | (Raise _, _) | (Hang, _) => False
    end;
  daily_ok : ∀ w, is_ok (SmartPlug.get_emeter_daily plug w).1 = true;
  child_ok : ∀ w info w',
    SmartPlug.context plug ≠ None →
    SmartPlug.sys_info plug w = (Ok info, w') →
    ∃ c, child_of info = Ok c
         ∧ is_ok (getitem c "alias") = true
         ∧ is_ok (getitem c "state") = true;
}.
End Runs.

(** ** Predicates on computations *)
Section Predicates.
Context {W : Type}.

(** [keeps f m]: running [m] leaves the observation [f] of the system
    as it was, whether [m] returns or raises. *)
Definition keeps {A B} (f : system W → B) (m : M W A) : Prop :=
  ∀ σ, f (m σ).2 = f σ.

(** [keeps_on_raise f m]: a run of [m] that raises leaves [f] as it
    was. *)
Definition keeps_on_raise {A B} (f : system W → B) (m : M W A) : Prop :=
  ∀ σ e σ', m σ = (Raise e, σ') → f σ' = f σ.

(** [returns m σ]: from [σ], [m] returns and writes no log line. *)
Definition returns {A} (m : M W A) (σ : system W) : Prop :=
  ∃ a σ', m σ = (Ok a, σ') ∧ trace σ' = trace σ.
End Predicates.

(** ** Sample devices

    The outside world of a sample device is the number of queries of the
    on/off state that will still fail with an I/O error, and the day of
    the month the clock shows; its numbers are handed over already
    formatted. *)
Section Samples.
Definition sample_runtime : Runtime (nat * Z) string := {|
  day_of_month := λ w, w.2;
  format_f := λ _ x, x;
  ATTR_CURRENT_POWER_W := "current_power_w";
  ATTR_TODAY_ENERGY_KWH := "today_energy_kwh";
  ATTR_VOLTAGE := "voltage";
|}.

Definition always {A} (r : result A) :
    nat * Z → result A * (nat * Z) :=
  λ w, (r, w).

Definition flaky_state : nat * Z → result string * (nat * Z) :=
  λ w, match w.1 with
       | O => (Ok "ON", w)
       | S n => (Raise OSError, (n, w.2))
       end.

Definition sample_readings : string → result string :=
  λ key, if bool_decide (key = "power") then Ok "12.34"
         else if bool_decide (key = "total") then Ok "1.234"
         else if bool_decide (key = "voltage") then Ok "120.1"
         else if bool_decide (key = "current") then Ok "0.12"
         else Raise KeyError.

Definition sample_plug (ctx : option string) (info : pyval)
    (emeter : bool) (realtime : result (string → result string))
    (daily : result (gmap Z string)) : SmartPlug.client (nat * Z) string := {|
  SmartPlug.host := "192.168.0.7";
  SmartPlug.context := ctx;
  SmartPlug.SWITCH_STATE_ON := "ON";
  SmartPlug.sys_info := always (Ok info);
  SmartPlug.mac := always (Ok "50:C7:BF:00:00:01");
  SmartPlug.model := always (Ok "HS110(EU)");
  SmartPlug.alias := always (Ok "Kettle");
  SmartPlug.state := flaky_state;
  SmartPlug.has_emeter := always (Ok emeter);
  SmartPlug.get_emeter_realtime := always realtime;
  SmartPlug.get_emeter_daily := always daily;
  SmartPlug.turn_on := always (Ok tt);
  SmartPlug.turn_off := always (Ok tt);
|}.

Definition outlet (id alias : string) (st : Z) : pyval :=
  PDict [("id", PStr id); ("alias", PStr alias); ("state", PInt st)].

Definition hs110_info : pyval :=
  PDict [("sw_ver", PStr "1.2.5"); ("relay_state", PInt 1)].

(** A power strip with three outlets. *)
Definition strip_info : pyval :=
  PDict [("sw_ver", PStr "1.0.8");
         ("children", PList [outlet "79" "Lamp" 0;
                             outlet "80" "Heater" 1;
                             outlet "81" "Fan" 0])].

(** A single outlet with metering; its history has an entry for the
    17th only. *)
Definition hs110 : SmartPlug.client (nat * Z) string :=
  sample_plug None hs110_info true (Ok sample_readings)
    (Ok {[ 17 := "0.456" ]}).

(** The same outlet with an empty history. *)
Definition hs110_no_history : SmartPlug.client (nat * Z) string :=
  sample_plug None hs110_info true (Ok sample_readings) (Ok ∅).

(** The same outlet whose realtime reading fails. *)
Definition hs110_meter_down : SmartPlug.client (nat * Z) string :=
  sample_plug None hs110_info true (Raise OSError) (Ok ∅).

(** The same outlet whose daily history fails. *)
Definition hs110_history_down : SmartPlug.client (nat * Z) string :=
  sample_plug None hs110_info true (Ok sample_readings)
    (Raise SmartDeviceException).

(** A single outlet without metering. *)
Definition hs100 : SmartPlug.client (nat * Z) string :=
  sample_plug None hs110_info false (Raise SmartDeviceException) (Ok ∅).

(** Outlet "80" of the strip. *)
Definition strip_80 : SmartPlug.client (nat * Z) string :=
  sample_plug (Some "80") strip_info false (Raise SmartDeviceException)
    (Ok ∅).

(** An outlet the strip does not list. *)
Definition strip_99 : SmartPlug.client (nat * Z) string :=
  sample_plug (Some "99") strip_info false (Raise SmartDeviceException)
    (Ok ∅).
(** Outlet "80" addressed on a device that reports no children. *)
Definition no_strip_80 : SmartPlug.client (nat * Z) string :=
  sample_plug (Some "80") hs110_info false (Raise SmartDeviceException)
    (Ok ∅).

(** A device whose on/off state is always readable. *)
Definition steady (p : SmartPlug.client (nat * Z) string) :
    SmartPlug.client (nat * Z) string := {|
  SmartPlug.host := SmartPlug.host p;
  SmartPlug.context := SmartPlug.context p;
  SmartPlug.SWITCH_STATE_ON := SmartPlug.SWITCH_STATE_ON p;
  SmartPlug.sys_info := SmartPlug.sys_info p;
  SmartPlug.mac := SmartPlug.mac p;
  SmartPlug.model := SmartPlug.model p;
  SmartPlug.alias := SmartPlug.alias p;
  SmartPlug.state := always (Ok "ON");
  SmartPlug.has_emeter := SmartPlug.has_emeter p;
  SmartPlug.get_emeter_realtime := SmartPlug.get_emeter_realtime p;
  SmartPlug.get_emeter_daily := SmartPlug.get_emeter_daily p;
  SmartPlug.turn_on := SmartPlug.turn_on p;
  SmartPlug.turn_off := SmartPlug.turn_off p;
|}.

(** A fresh entity on the 17th, with [n] failing state queries ahead. *)
Definition fresh (n : nat) : system (nat * Z) := start (n, 17).

(** The system [k] failed passes after [σ]. *)
Definition after_failures (p : SmartPlug.client (nat * Z) string) (k : nat)
    (σ : system (nat * Z)) : system (nat * Z) :=
  default σ (failed_attempts p sample_runtime k σ).

(** The metered outlet after one refresh on the 17th, seen on the 18th. *)
Definition next_day : system (nat * Z) :=
  run hs110 sample_runtime [Refresh; Elapse (0%nat, 18)] (fresh 0).
End Samples.

(** ** The rest of the class *)

(** The value of the [device_info] property: a dict with five fixed keys;
    [connections] is a set holding one pair. *)
Record device_info_dict : Type := {
  info_name : pyval;
  info_model : pyval;
  info_manufacturer : string;
  info_connections : list (string * pyval);
  info_sw_version : pyval;
}.

(** [device_info]; [CONNECTION_NETWORK_MAC] is the constant of the host's
    device registry.  The entries are evaluated in order and only the last
    one, [self._sysinfo["sw_ver"]], can raise. *)
Definition device_info (CONNECTION_NETWORK_MAC : string) (e : entity) :
    result device_info_dict :=
  match getitem (_sysinfo e) "sw_ver" with
  | Ok v =>
      Ok {| info_name := _alias e;
            info_model := _model e;
            info_manufacturer := "TP-Link";
            info_connections := [(CONNECTION_NETWORK_MAC, _mac e)];
            info_sw_version := v |}
  | Raise ex => Raise ex
  | Hang => Hang
  end.

(** ** More predicates on computations and devices *)
Section MorePredicates.
Context {W Num : Type}.

(** [preserves R m]: every run of [m] takes a system to one related to it
    by [R]. *)
Definition preserves {A} (R : system W → system W → Prop) (m : M W A) : Prop :=
  ∀ σ, R σ (m σ).2.

(** The on/off state, once known, stays known. *)
Definition state_known : system W → system W → Prop :=
  λ σ σ', is_Some (_state (self σ)) → is_Some (_state (self σ')).

(** No state attribute is dropped. *)
Definition params_grow : system W → system W → Prop :=
  λ σ σ', dom (_emeter_params (self σ)) ⊆ dom (_emeter_params (self σ')).

(** What [k] failed attempts write to the log, with the sleeps between
    them: for each one the retry warning, naming the alias the entity had
    and the error, then the sleep. *)
Definition retry_events (host : string) (l : list (pyval * exn)) : list event :=
  flat_map (λ ae, [Warning (Retrying SLEEP_TIME host ae.1 ae.2);
                   Sleep SLEEP_TIME]) l.

(** A device no query of [sys_info] reaches: each one fails with a device
    or I/O error. *)
Definition unreachable (plug : SmartPlug.client W Num) : Prop :=
  ∀ w, ∃ e w', SmartPlug.sys_info plug w = (Raise e, w')
               ∧ recoverable e = true.

(** A device that is offline: neither [sys_info] nor the on/off state
    can be queried; each query fails with a device or I/O error. *)
Definition offline (plug : SmartPlug.client W Num) : Prop :=
  ∀ w, (∃ e w', SmartPlug.sys_info plug w = (Raise e, w')
                ∧ recoverable e = true)
       ∧ (∃ e w', SmartPlug.state plug w = (Raise e, w')
                  ∧ recoverable e = true).

(** The four realtime entries in the order [attempt_update] stores them:
    attribute name, number of decimals, key of the reading. *)
Definition reading_slots (rt : Runtime W Num) : list (string * nat * string) :=
  [(ATTR_CURRENT_POWER_W rt, 2%nat, "power");
   (ATTR_TOTAL_ENERGY_KWH, 3%nat, "total");
   (ATTR_VOLTAGE rt, 1%nat, "voltage");
   (ATTR_CURRENT_A, 2%nat, "current")].

(** The state attributes [m] once the readings of [slots] are stored in
    them, one after the other. *)
Definition store_slots (rt : Runtime W Num) (readings : string → result Num)
    (slots : list (string * nat * string)) (m : gmap string string) :
    gmap string string :=
  foldl (λ m slot,
           match readings slot.2 with
           | Ok x => <[slot.1.1 := format_f rt slot.1.2 x]> m
           | _ => m
           end) m slots.
End MorePredicates.

(** "Equals the numeric value 1", in the words of the derivation rule for
    a child outlet, to compare [py_eq_int] with: the integer 1, the
    boolean [True] and a float of value 1 are equal to 1, and nothing
    else is. *)
Definition spec_equals_one (v : pyval) : Prop :=
  match v with
  | PInt z => z = 1
  | PBool b => b = true
  | PFloat q => QArith_base.Qeq q (QArith_base.inject_Z 1)
  | _ => False
  end.

(** ** More sample devices *)
Section MoreSamples.
(** A query that fails with an I/O error while failures are due. *)
Definition flaky {A} (a : A) : nat * Z → result A * (nat * Z) :=
  λ w, match w.1 with
       | O => (Ok a, w)
       | S n => (Raise OSError, (n, w.2))
       end.

(** A device whose hardware address is the flaky query. *)
Definition mac_flaky (p : SmartPlug.client (nat * Z) string) :
    SmartPlug.client (nat * Z) string := {|
  SmartPlug.host := SmartPlug.host p;
  SmartPlug.context := SmartPlug.context p;
  SmartPlug.SWITCH_STATE_ON := SmartPlug.SWITCH_STATE_ON p;
  SmartPlug.sys_info := SmartPlug.sys_info p;
  SmartPlug.mac := flaky "50:C7:BF:00:00:01";
  SmartPlug.model := SmartPlug.model p;
  SmartPlug.alias := SmartPlug.alias p;
  SmartPlug.state := always (Ok "ON");
  SmartPlug.has_emeter := SmartPlug.has_emeter p;
  SmartPlug.get_emeter_realtime := SmartPlug.get_emeter_realtime p;
  SmartPlug.get_emeter_daily := SmartPlug.get_emeter_daily p;
  SmartPlug.turn_on := SmartPlug.turn_on p;
  SmartPlug.turn_off := SmartPlug.turn_off p;
|}.

(** A device that is switched off at the wall. *)
Definition unplugged (p : SmartPlug.client (nat * Z) string) :
    SmartPlug.client (nat * Z) string := {|
  SmartPlug.host := SmartPlug.host p;
  SmartPlug.context := SmartPlug.context p;
  SmartPlug.SWITCH_STATE_ON := SmartPlug.SWITCH_STATE_ON p;
  SmartPlug.sys_info := always (Raise OSError);
  SmartPlug.mac := always (Raise OSError);
  SmartPlug.model := always (Raise OSError);
  SmartPlug.alias := always (Raise OSError);
  SmartPlug.state := always (Raise OSError);
  SmartPlug.has_emeter := always (Raise OSError);
  SmartPlug.get_emeter_realtime := always (Raise OSError);
  SmartPlug.get_emeter_daily := always (Raise OSError);
  SmartPlug.turn_on := always (Raise OSError);
  SmartPlug.turn_off := always (Raise OSError);
|}.

(** A reading that has the power only: the client finds no value for
    the other keys. *)
Definition power_only : string → result string :=
  λ key, if bool_decide (key = "power") then Ok "12.34"
         else Raise SmartDeviceException.

(** A metered outlet whose realtime reading has the power only. *)
Definition hs110_power_only : SmartPlug.client (nat * Z) string :=
  sample_plug None hs110_info true (Ok power_only) (Ok ∅).


(** A device that answers [info] to [sys_info] and is another device
    from the 18th on: another hardware address, model and alias. *)
Definition renamed (info : pyval) : SmartPlug.client (nat * Z) string := {|
  SmartPlug.host := "192.168.0.7";
  SmartPlug.context := None;
  SmartPlug.SWITCH_STATE_ON := "ON";
  SmartPlug.sys_info := always (Ok info);
  SmartPlug.mac :=
    λ w, (Ok (if bool_decide (w.2 = 17) then "50:C7:BF:00:00:01"
              else "50:C7:BF:00:00:02"), w);
  SmartPlug.model :=
    λ w, (Ok (if bool_decide (w.2 = 17) then "HS110(EU)" else "HS100(EU)"), w);
  SmartPlug.alias :=
    λ w, (Ok (if bool_decide (w.2 = 17) then "Kettle" else "Toaster"), w);
  SmartPlug.state := always (Ok "ON");
  SmartPlug.has_emeter := always (Ok false);
  SmartPlug.get_emeter_realtime := always (Raise SmartDeviceException);
  SmartPlug.get_emeter_daily := always (Ok ∅);
  SmartPlug.turn_on := always (Ok tt);
  SmartPlug.turn_off := always (Ok tt);
|}.

(** The entity resolved on the 17th against the device that answers
    [sys_info] with an empty object, at the start of an attempt of the
    refresh of the 18th. *)
Definition renamed_stale : system (nat * Z) :=
  with_self (set_is_ready false)
    (run (renamed (PDict [])) sample_runtime [Refresh; Elapse (0%nat, 18)]
       (fresh 0)).

(** A metered outlet that is on and well on the 17th; from the 18th on
    it is off and its realtime reading fails with an I/O error. *)
Definition fading : SmartPlug.client (nat * Z) string := {|
  SmartPlug.host := "192.168.0.7";
  SmartPlug.context := None;
  SmartPlug.SWITCH_STATE_ON := "ON";
  SmartPlug.sys_info := always (Ok hs110_info);
  SmartPlug.mac := always (Ok "50:C7:BF:00:00:01");
  SmartPlug.model := always (Ok "HS110(EU)");
  SmartPlug.alias := always (Ok "Kettle");
  SmartPlug.state :=
    λ w, (Ok (if bool_decide (w.2 = 17) then "ON" else "OFF"), w);
  SmartPlug.has_emeter := always (Ok true);
  SmartPlug.get_emeter_realtime :=
    λ w, (if bool_decide (w.2 = 17) then Ok sample_readings
          else Raise OSError, w);
  SmartPlug.get_emeter_daily := always (Ok {[ 17 := "0.456" ]});
  SmartPlug.turn_on := always (Ok tt);
  SmartPlug.turn_off := always (Ok tt);
|}.

(** The faded outlet as the entity sees it on the 18th, after a refresh
    on the 17th. *)
Definition faded : system (nat * Z) :=
  run fading sample_runtime [Refresh; Elapse (0%nat, 18)] (fresh 0).

(** A single outlet whose outside world is its relay: the commands
    switch it and the state query reads it. *)
Definition relay : SmartPlug.client bool string := {|
  SmartPlug.host := "192.168.0.9";
  SmartPlug.context := None;
  SmartPlug.SWITCH_STATE_ON := "ON";
  SmartPlug.sys_info := λ on, (Ok hs110_info, on);
  SmartPlug.mac := λ on, (Ok "50:C7:BF:00:00:09", on);
  SmartPlug.model := λ on, (Ok "HS100(EU)", on);
  SmartPlug.alias := λ on, (Ok "Lamp", on);
  SmartPlug.state := λ on : bool, (Ok (if on then "ON" else "OFF"), on);
  SmartPlug.has_emeter := λ on, (Ok false, on);
  SmartPlug.get_emeter_realtime := λ on, (Raise SmartDeviceException, on);
  SmartPlug.get_emeter_daily := λ on, (Ok ∅, on);
  SmartPlug.turn_on := λ _, (Ok tt, true);
  SmartPlug.turn_off := λ _, (Ok tt, false);
|}.

Definition relay_runtime : Runtime bool string := {|
  day_of_month := λ _, 17;
  format_f := λ _ x, x;
  ATTR_CURRENT_POWER_W := "current_power_w";
  ATTR_TODAY_ENERGY_KWH := "today_energy_kwh";
  ATTR_VOLTAGE := "voltage";
|}.

(** The lamp, switched on and refreshed once. *)
Definition lamp_on : system bool :=
  run relay relay_runtime [Refresh] (start true).
End MoreSamples.

(** ** Frame rules *)
Section Frames.
Context {W : Type}.

Lemma keeps_ret {A B} (f : system W → B) (a : A) : keeps f (ret a).
Proof. by intros σ. Qed.

Lemma keeps_lift {A B} (f : system W → B) (r : result A) : keeps f (lift r).
Proof. by intros σ. Qed.

Lemma keeps_get {A B} (f : system W → B) (g : entity → A) : keeps f (get g).
Proof. by intros σ. Qed.

Lemma keeps_observe {A B} (f : system W → B) (g : W → A) :
  keeps f (observe g).
Proof. by intros σ. Qed.

Lemma keeps_modify {B} (f : system W → B) (g : entity → entity) :
  (∀ σ, f (with_self g σ) = f σ) → keeps f (modify g).
Proof. intros Hg σ. apply Hg. Qed.

Lemma keeps_call {A B} (f : system W → B) (c : W → result A * W) :
  (∀ w σ, f (with_world w σ) = f σ) → keeps f (call c).
Proof.
  intros Hw σ. unfold call. destruct (c (world σ)) as [r w]. apply Hw.
Qed.

Lemma keeps_emit {B} (f : system W → B) (ev : event) :
  (∀ σ, f (with_event ev σ) = f σ) → keeps f (emit ev).
Proof. intros He σ. apply He. Qed.

Lemma keeps_bind {A B C} (f : system W → C) (m : M W A) (k : A → M W B) :
  keeps f m → (∀ a, keeps f (k a)) → keeps f (bind m k).
Proof.
  intros Hm Hk σ. unfold bind. specialize (Hm σ).
  destruct (m σ) as [[a|e|] σ']; simpl in *; [|done..].
  by rewrite Hk.
Qed.

Lemma keeps_try_except {A B} (f : system W → B) (m : M W A)
    (h : exn → option (M W A)) :
  keeps f m → (∀ e k, h e = Some k → keeps f k) → keeps f (try_except m h).
Proof.
  intros Hm Hh σ. unfold try_except. specialize (Hm σ).
  destruct (m σ) as [[a|e|] σ']; simpl in *; [done| |done].
  destruct (h e) as [k|] eqn:He; [|done].
  by rewrite (Hh e k He).
Qed.

(** A second observation may be kept only by the runs that raise. *)
Lemma bind_raises {A B} (m : M W A) (k : A → M W B) σ e σ' :
  bind m k σ = (Raise e, σ') →
  m σ = (Raise e, σ') ∨ ∃ a σ1, m σ = (Ok a, σ1) ∧ k a σ1 = (Raise e, σ').
Proof.
  unfold bind. destruct (m σ) as [[a|e1|] σ1]; simpl; intros H.
  - right. by exists a, σ1.
  - left. by simplify_eq.
  - done.
Qed.

Lemma bind_returns {A B} (m : M W A) (k : A → M W B) σ b σ' :
  bind m k σ = (Ok b, σ') →
  ∃ a σ1, m σ = (Ok a, σ1) ∧ k a σ1 = (Ok b, σ').
Proof.
  unfold bind. destruct (m σ) as [[a|e1|] σ1]; simpl; intros H; [|done..].
  by exists a, σ1.
Qed.

(** The same rules at one state, where the continuation only has to
    behave on what the first part really returned. *)
Lemma bind_keeps_at {A B C} (f : system W → C) (m : M W A)
    (k : A → M W B) σ :
  f (m σ).2 = f σ →
  (∀ a σ1, m σ = (Ok a, σ1) → f (k a σ1).2 = f σ1) →
  f (bind m k σ).2 = f σ.
Proof.
  intros Hm Hk. unfold bind.
  destruct (m σ) as [[a|e|] σ1]; simpl in *; [|done..].
  by rewrite (Hk a σ1).
Qed.

Lemma try_except_keeps_at {A B} (f : system W → B) (m : M W A)
    (h : exn → option (M W A)) σ :
  f (m σ).2 = f σ →
  (∀ e k, h e = Some k → keeps f k) →
  f (try_except m h σ).2 = f σ.
Proof.
  intros Hm Hh. unfold try_except.
  destruct (m σ) as [[a|e|] σ1]; simpl in *; [done| |done].
  destruct (h e) as [k|] eqn:He; [|done].
  by rewrite (Hh e k He).
Qed.

Lemma call_returns {A} (c : W → result A * W) σ r σ1 :
  call c σ = (r, σ1) →
  ∃ w, c (world σ) = (r, w) ∧ σ1 = with_world w σ.
Proof.
  unfold call. destruct (c (world σ)) as [r' w]. intros [= <- <-].
  by exists w.
Qed.

(** The await changes the outcome of a job, never the state it left. *)
Lemma executor_job_state {A} (job : M W A) σ :
  (async_add_executor_job job σ).2 = (job σ).2.
Proof.
  unfold async_add_executor_job.
  by destruct (job σ) as [[a|[]|] σ1].
Qed.

Lemma executor_job_ok {A} (job : M W A) σ a σ1 :
  async_add_executor_job job σ = (Ok a, σ1) ↔ job σ = (Ok a, σ1).
Proof.
  unfold async_add_executor_job.
  destruct (job σ) as [[a'|[]|] σ']; split; intros H; by simplify_eq.
Qed.

Lemma executor_job_raise {A} (job : M W A) σ e σ1 :
  async_add_executor_job job σ = (Raise e, σ1)
  ↔ job σ = (Raise e, σ1) ∧ e ≠ StopIteration.
Proof.
  unfold async_add_executor_job.
  destruct (job σ) as [[a'|[]|] σ']; split;
    first [intros [H ?]|intros H]; by simplify_eq.
Qed.

Lemma keeps_executor_job {A B} (f : system W → B) (job : M W A) :
  keeps f job → keeps f (async_add_executor_job job).
Proof. intros Hj σ. rewrite executor_job_state. apply Hj. Qed.

Lemma bind_ok {A B} (m : M W A) (k : A → M W B) σ a σ1 :
  m σ = (Ok a, σ1) → bind m k σ = k a σ1.
Proof. unfold bind. by intros ->. Qed.

Lemma bind_raise {A B} (m : M W A) (k : A → M W B) σ e σ1 :
  m σ = (Raise e, σ1) → bind m k σ = (Raise e, σ1).
Proof. unfold bind. by intros ->. Qed.
End Frames.

Create HintDb frame discriminated.
#[export] Hint Resolve keeps_ret keeps_lift keeps_get keeps_observe : frame.

(** Breaks a computation into its primitive steps and settles each with
    its frame rule; what a step writes is compared by computation. *)
Ltac frame_step :=
  lazymatch goal with
  | |- keeps _ (bind _ _) => apply keeps_bind; [|intros ?]
  | |- keeps _ (try_except _ _) =>
      apply keeps_try_except;
      [|let e := fresh "e" in let k := fresh "k" in let H := fresh "H" in
        intros e k H; destruct e; simpl in H; simplify_eq]
  | |- keeps _ (modify _) => apply keeps_modify; intros ?; reflexivity
  | |- keeps _ (call _) => apply keeps_call; intros ? ?; reflexivity
  | |- keeps _ (emit _) => apply keeps_emit; intros ?; reflexivity
  | |- keeps _ (sleep _) => apply keeps_emit; intros ?; reflexivity
  | |- keeps _ (ret _) => apply keeps_ret
  | |- keeps _ (lift _) => apply keeps_lift
  | |- keeps _ (get _) => apply keeps_get
  | |- keeps _ (observe _) => apply keeps_observe
  | |- keeps _ (match ?x with _ => _ end) => destruct x
  | |- keeps _ (async_add_executor_job _) => apply keeps_executor_job
  end.
Ltac frame := repeat frame_step; eauto with frame.

Section Properties.
Context {W Num : Type}.
Variable plug : SmartPlug.client W Num.
Variable rt : Runtime W Num.

Implicit Types (σ : system W) (e : exn).

Local Abbreviation ent f := (λ σ : system W, f (self σ)).

(** *** What each method leaves alone *)

Lemma _plug_from_context_keeps_self :
  keeps (W:=W) self (_plug_from_context plug).
Proof. unfold _plug_from_context. frame. Qed.

Lemma _plug_from_context_keeps_trace :
  keeps (W:=W) trace (_plug_from_context plug).
Proof. unfold _plug_from_context. frame. Qed.

(** [update_state] assigns [_state] and nothing else. *)
Lemma update_state_keeps {B} (f : entity → B) :
  (∀ v en, f (set_state v en) = f en) →
  keeps (ent f) (update_state plug).
Proof.
  intros Hf. unfold update_state, _plug_from_context.
  repeat first [ apply keeps_modify; intros ?; cbn; apply Hf | frame_step ].
Qed.

Lemma update_state_keeps_trace : keeps (W:=W) trace (update_state plug).
Proof. unfold update_state, _plug_from_context. frame. Qed.

Ltac unfold_methods :=
  unfold attempt_update, attempt_body, resolve_identity, update_emeter,
    store_today, store_reading, update_state, _plug_from_context,
    turn_off, turn_on, attempts_exhausted.

(** The metering steps write [_emeter_params] and nothing else. *)
Lemma update_emeter_keeps {B} (f : entity → B) :
  (∀ k v en, f (set_emeter_param k v en) = f en) →
  keeps (ent f) (update_emeter plug rt).
Proof.
  intros Hf. unfold_methods.
  repeat first [ apply keeps_modify; intros ?; cbn; apply Hf | frame_step ].
Qed.

Lemma update_emeter_keeps_trace : keeps (W:=W) trace (update_emeter plug rt).
Proof. unfold_methods. frame. Qed.

(** Resolving the identity touches neither the snapshot nor the flags. *)
Lemma resolve_identity_keeps_state :
  keeps (ent _state) (resolve_identity plug).
Proof. unfold_methods. frame. Qed.

Lemma resolve_identity_keeps_emeter_params :
  keeps (ent _emeter_params) (resolve_identity plug).
Proof. unfold_methods. frame. Qed.

Lemma resolve_identity_keeps_is_ready :
  keeps (ent _is_ready) (resolve_identity plug).
Proof. unfold_methods. frame. Qed.

Lemma resolve_identity_keeps_trace :
  keeps (W:=W) trace (resolve_identity plug).
Proof. unfold_methods. frame. Qed.

(** No attempt assigns [_available]. *)
Lemma attempt_update_keeps_available :
  keeps (ent _available) (attempt_update plug rt).
Proof. unfold_methods. frame. Qed.

Lemma one_attempt_keeps_available :
  keeps (ent _available) (one_attempt plug rt).
Proof. unfold one_attempt. unfold_methods. frame. Qed.

(** What follows the resolution of the identity in an attempt. *)
Lemma attempt_rest_keeps_identity :
  keeps (ent identity)
    (update_state plug ;;
     emeter <- call (SmartPlug.has_emeter plug) ;;
     (if emeter : bool then update_emeter plug rt else ret tt) ;;
     modify (set_is_ready true)).
Proof. unfold_methods. frame. Qed.

(** Once [_sysinfo] holds a non-empty answer an attempt leaves every
    identity field alone. *)
Lemma attempt_update_keeps_identity σ :
  truthy (_sysinfo (self σ)) = true →
  identity (self (attempt_update plug rt σ).2) = identity (self σ).
Proof.
  intros Hres. unfold attempt_update.
  apply (try_except_keeps_at (ent identity)).
  - unfold attempt_body.
    apply (bind_keeps_at (ent identity)); [done|].
    intros info σ1 [= <- <-].
    apply (bind_keeps_at (ent identity)).
    + by rewrite Hres.
    + intros [] σ2 _. apply attempt_rest_keeps_identity.
  - intros e k Hk. destruct (recoverable e); simplify_eq. frame.
Qed.

Lemma turn_on_keeps_self : keeps (W:=W) self (turn_on plug).
Proof. unfold_methods. frame. Qed.

Lemma turn_on_keeps_trace : keeps (W:=W) trace (turn_on plug).
Proof. unfold_methods. frame. Qed.

Lemma turn_off_keeps {B} (f : entity → B) :
  (∀ v en, f (set_state v en) = f en) →
  keeps (ent f) (turn_off plug).
Proof.
  intros Hf. unfold turn_off. apply keeps_bind; [frame|].
  intros _. by apply update_state_keeps.
Qed.

Lemma turn_off_keeps_trace : keeps (W:=W) trace (turn_off plug).
Proof.
  unfold turn_off. apply keeps_bind; [frame|].
  intros _. apply update_state_keeps_trace.
Qed.

(** *** Runs that raise *)

Lemma keeps_on_raise_weaken {A B} (f : system W → B) (m : M W A) :
  keeps f m → keeps_on_raise f m.
Proof. intros Hm σ e σ' Hr. specialize (Hm σ). by rewrite Hr in Hm. Qed.

Lemma keeps_on_raise_modify {B} (f : system W → B) (g : entity → entity) :
  keeps_on_raise f (modify g).
Proof. intros σ e σ' Hr. discriminate Hr. Qed.

Lemma keeps_on_raise_bind {A B C} (f : system W → C) (m : M W A)
    (k : A → M W B) :
  keeps f m → (∀ a, keeps_on_raise f (k a)) → keeps_on_raise f (bind m k).
Proof.
  intros Hm Hk σ e σ' Hr.
  destruct (bind_raises _ _ _ _ _ Hr) as [Hm1 | (a & σ1 & Hm1 & Hk1)];
    specialize (Hm σ); rewrite Hm1 in Hm; simpl in Hm.
  - done.
  - rewrite <- Hm. by eapply Hk.
Qed.

(** [update_state] raises before it assigns. *)
Lemma update_state_raise_keeps_self :
  keeps_on_raise (W:=W) self (update_state plug).
Proof.
  unfold update_state. destruct (SmartPlug.context plug).
  - apply keeps_on_raise_bind; [apply _plug_from_context_keeps_self|].
    intros c. apply keeps_on_raise_bind; [frame|].
    intros v. apply keeps_on_raise_modify.
  - apply keeps_on_raise_bind; [frame|].
    intros st. apply keeps_on_raise_modify.
Qed.

(** The first part of an attempt, when it raises, has written neither
    [_state] nor [_emeter_params]. *)
Lemma refresh_state_raise_keeps {B} (f : entity → B) :
  keeps (ent f) (resolve_identity plug) →
  keeps_on_raise (ent f) (refresh_state plug).
Proof.
  intros Hres. unfold refresh_state.
  apply keeps_on_raise_bind; [frame|]. intros info.
  apply keeps_on_raise_bind; [destruct (truthy info); [frame | done]|].
  intros _ σ e σ' Hr. cbn.
  by rewrite (update_state_raise_keeps_self σ e σ' Hr).
Qed.

(** An attempt is its first part followed by its second. *)
Lemma attempt_body_split σ :
  attempt_body plug rt σ = (refresh_state plug ;; refresh_emeter plug rt) σ.
Proof.
  unfold attempt_body, refresh_state, refresh_emeter, bind, get.
  destruct (truthy (_sysinfo (self σ))); cbn.
  - destruct (update_state plug σ) as [[[]|e|] σ1]; reflexivity.
  - destruct (resolve_identity plug σ) as [[[]|e|] σ1]; [|reflexivity..].
    destruct (update_state plug σ1) as [[[]|e|] σ2]; reflexivity.
Qed.

(** The body of an attempt sets [_is_ready] last: a body that raises has
    not set it, a body that returns has. *)
Lemma attempt_body_raise_keeps_is_ready :
  keeps_on_raise (ent _is_ready) (attempt_body plug rt).
Proof.
  unfold attempt_body.
  apply keeps_on_raise_bind; [frame|]. intros info.
  apply keeps_on_raise_bind.
  { destruct (truthy info); [frame | apply resolve_identity_keeps_is_ready]. }
  intros _. apply keeps_on_raise_bind; [by apply update_state_keeps|].
  intros _. apply keeps_on_raise_bind; [frame|]. intros emeter.
  apply keeps_on_raise_bind.
  { destruct emeter; [by apply update_emeter_keeps | frame]. }
  intros _. apply keeps_on_raise_modify.
Qed.

Lemma attempt_body_return_is_ready σ a σ' :
  attempt_body plug rt σ = (Ok a, σ') → _is_ready (self σ') = true.
Proof.
  unfold attempt_body. intros H.
  repeat (apply bind_returns in H; destruct H as (? & ? & _ & H)).
  by injection H as _ <-.
Qed.

(** *** The handler of [attempt_update] *)

Lemma attempt_update_of_body σ :
  attempt_update plug rt σ =
  match attempt_body plug rt σ with
  | (Ok a, σ1) => (Ok a, σ1)
  | (Raise e, σ1) =>
      if recoverable e
      then (Ok tt, with_event
                     (Warning (Retrying SLEEP_TIME (SmartPlug.host plug)
                                 (_alias (self σ1)) e)) σ1)
      else (Raise e, σ1)
  | (Hang, σ1) => (Hang, σ1)
  end.
Proof.
  unfold attempt_update, try_except.
  destruct (attempt_body plug rt σ) as [[a|e|] σ1]; [done| |done].
  by destruct (recoverable e).
Qed.

Lemma attempt_update_raise σ e σ' :
  attempt_update plug rt σ = (Raise e, σ') → recoverable e = false.
Proof.
  rewrite attempt_update_of_body.
  destruct (attempt_body plug rt σ) as [[a|e1|] σ1]; [done| |done].
  destruct (recoverable e1) eqn:He; [done|]. by intros [= <- _].
Qed.

(** *** The loop of [async_update] *)

Lemma one_attempt_eq σ :
  one_attempt plug rt σ =
  async_add_executor_job (attempt_update plug rt)
    (with_self (set_is_ready false) σ).
Proof. reflexivity. Qed.

Lemma one_attempt_state σ :
  (one_attempt plug rt σ).2 =
  (attempt_update plug rt (with_self (set_is_ready false) σ)).2.
Proof. rewrite one_attempt_eq. apply executor_job_state. Qed.

Lemma one_attempt_ok σ a σ1 :
  one_attempt plug rt σ = (Ok a, σ1)
  ↔ attempt_update plug rt (with_self (set_is_ready false) σ) = (Ok a, σ1).
Proof. rewrite one_attempt_eq. apply executor_job_ok. Qed.

(** What the awaiting coroutine sees of an attempt that raised. *)
Lemma one_attempt_raised σ e σ1 :
  attempt_update plug rt (with_self (set_is_ready false) σ) = (Raise e, σ1) →
  one_attempt plug rt σ =
  (match e with StopIteration => Hang | _ => Raise e end, σ1).
Proof.
  intros Hr. rewrite one_attempt_eq. unfold async_add_executor_job.
  rewrite Hr. by destruct e.
Qed.

Lemma update_loop_S n σ :
  update_loop plug rt (S n) σ =
  match one_attempt plug rt σ with
  | (Ok _, σ1) =>
      if _is_ready (self σ1)
      then (Ok tt, with_self (set_available true) σ1)
      else update_loop plug rt n (with_event (Sleep SLEEP_TIME) σ1)
  | (Raise e, σ1) => (Raise e, σ1)
  | (Hang, σ1) => (Hang, σ1)
  end.
Proof.
  cbn [update_loop]. unfold one_attempt, bind, modify, get, sleep, emit.
  destruct (async_add_executor_job _ _) as [[[]|e|] σ1]; [|done..].
  by destruct (_is_ready (self σ1)).
Qed.

Lemma attempts_exhausted_eq σ :
  attempts_exhausted σ =
  (Ok tt,
   {| self := set_available false (self σ);
      world := world σ;
      trace := trace σ ++
               (if _available (self σ)
                then [Warning (CouldNotRead (_host (self σ)) (_alias (self σ)))]
                else []) |}).
Proof.
  unfold attempts_exhausted, bind, get, modify, emit, ret, with_self, with_event.
  destruct σ as [en w tr]; cbn. destruct (_available en); cbn; [done|].
  by rewrite app_nil_r.
Qed.

Lemma failed_attempts_S k σ σ1 :
  one_attempt plug rt σ = (Ok tt, σ1) →
  _is_ready (self σ1) = false →
  failed_attempts plug rt (S k) σ =
  failed_attempts plug rt k (with_event (Sleep SLEEP_TIME) σ1).
Proof. intros H1 H2. cbn [failed_attempts]. by rewrite H1, H2. Qed.

(** Each of the [k] failed passes is consumed by the loop. *)
Lemma update_loop_failed k n σ σk :
  failed_attempts plug rt k σ = Some σk →
  update_loop plug rt (k + n) σ = update_loop plug rt n σk.
Proof.
  revert σ. induction k as [|k IH]; intros σ Hk.
  - by injection Hk as ->.
  - cbn [failed_attempts] in Hk. change (S k + n)%nat with (S (k + n)).
    rewrite update_loop_S.
    destruct (one_attempt plug rt σ) as [[[]|e|] σ1]; [|done..].
    destruct (_is_ready (self σ1)); [done|]. by apply IH.
Qed.

Lemma failed_attempts_keeps_available k σ σk :
  failed_attempts plug rt k σ = Some σk →
  _available (self σk) = _available (self σ).
Proof.
  revert σ. induction k as [|k IH]; intros σ Hk.
  - by injection Hk as ->.
  - cbn [failed_attempts] in Hk.
    pose proof (one_attempt_keeps_available σ) as Hav.
    destruct (one_attempt plug rt σ) as [[[]|e|] σ1]; [|done..].
    destruct (_is_ready (self σ1)); [done|].
    rewrite (IH _ Hk). exact Hav.
Qed.

(** How a run of the loop ends: with a first success after [k] failed
    passes, with all [n] passes failed, or at pass [k + 1] with what the
    await made of an attempt that did not return. *)
Lemma update_loop_cases n σ :
  (∃ k σk σs, (k < n)%nat
     ∧ failed_attempts plug rt k σ = Some σk
     ∧ one_attempt plug rt σk = (Ok tt, σs)
     ∧ _is_ready (self σs) = true
     ∧ update_loop plug rt n σ = (Ok tt, with_self (set_available true) σs))
  ∨ (∃ σn, failed_attempts plug rt n σ = Some σn
     ∧ update_loop plug rt n σ = attempts_exhausted σn)
  ∨ (∃ k σk r σe, (k < n)%nat
     ∧ failed_attempts plug rt k σ = Some σk
     ∧ one_attempt plug rt σk = (r, σe)
     ∧ is_ok r = false
     ∧ update_loop plug rt n σ = (r, σe)).
Proof.
  revert σ. induction n as [|n IH]; intros σ.
  - right; left. by exists σ.
  - rewrite update_loop_S.
    destruct (one_attempt plug rt σ) as [[[]|e|] σ1] eqn:H1.
    + destruct (_is_ready (self σ1)) eqn:Hr.
      * left. exists 0%nat, σ, σ1. repeat split; [lia|done..].
      * destruct (IH (with_event (Sleep SLEEP_TIME) σ1))
          as [(k & σk & σs & ? & ? & ? & ? & ?)
             |[(σn & ? & ?)|(k & σk & r & σe & ? & ? & ? & ? & ?)]].
        -- left. exists (S k), σk, σs.
           rewrite (failed_attempts_S _ _ _ H1 Hr). repeat split; [lia|done..].
        -- right; left. exists σn.
           by rewrite (failed_attempts_S _ _ _ H1 Hr).
        -- right; right. exists (S k), σk, r, σe.
           rewrite (failed_attempts_S _ _ _ H1 Hr). repeat split; [lia|done..].
    + right; right. exists 0%nat, σ, (Raise e), σ1. repeat split; [lia|done..].
    + right; right. exists 0%nat, σ, Hang, σ1. repeat split; [lia|done..].
Qed.

(** An observation of the entity that every attempt keeps while a
    condition on it holds, and that the two flags do not enter, is kept
    by the whole loop. *)
Lemma update_loop_keeps {B} (f : entity → B) (Q : B → Prop) n σ :
  (∀ v en, f (set_is_ready v en) = f en) →
  (∀ v en, f (set_available v en) = f en) →
  (∀ σ, Q (f (self σ)) → f (self (attempt_update plug rt σ).2) = f (self σ)) →
  Q (f (self σ)) →
  f (self (update_loop plug rt n σ).2) = f (self σ).
Proof.
  intros Hr Ha Hatt. revert σ. induction n as [|n IH]; intros σ HQ.
  - cbn [update_loop]. rewrite attempts_exhausted_eq. cbn. apply Ha.
  - rewrite update_loop_S.
    pose proof (Hatt (with_self (set_is_ready false) σ)) as H1.
    cbn [self with_self] in H1. rewrite Hr in H1. specialize (H1 HQ).
    rewrite <- one_attempt_state in H1.
    destruct (one_attempt plug rt σ) as [[[]|e|] σ1]; cbn in H1; [|done..].
    destruct (_is_ready (self σ1)).
    + cbn. by rewrite Ha.
    + rewrite IH; cbn [self with_event]; by rewrite H1.
Qed.

(** *** The addressed outlet *)

Lemma _plug_from_context_eq σ :
  _plug_from_context plug σ =
  match SmartPlug.sys_info plug (world σ) with
  | (Ok info, w) => (child_of plug info, with_world w σ)
  | (Raise e, w) => (Raise e, with_world w σ)
  | (Hang, w) => (Hang, with_world w σ)
  end.
Proof.
  unfold _plug_from_context, child_of, bind, call, lift.
  destruct (SmartPlug.sys_info plug (world σ)) as [[info|e|] w]; [|done..].
  destruct (getitem info "children") as [children|e|]; [|done..].
  by destruct (py_iter children).
Qed.

Lemma py_eq_context_true i ctx :
  py_eq_context i (Some ctx) = true ↔ i = PStr ctx.
Proof.
  destruct i; cbn; try (split; [done|by intros [=]]).
  rewrite bool_decide_eq_true. split; [by intros ->|by intros [= ->]].
Qed.

(** [next] yields the first record whose id is the context. *)
Lemma next_child_first ctx pre child post :
  Forall (λ c, ∃ i, getitem c "id" = Ok i ∧ i ≠ PStr ctx) pre →
  getitem child "id" = Ok (PStr ctx) →
  next_child (Some ctx) (pre ++ child :: post) = Ok child.
Proof.
  intros Hpre Hid.
  induction Hpre as [|c pre (i & Hi & Hne) _ IH]; cbn [app next_child].
  - rewrite Hid. by rewrite (proj2 (py_eq_context_true _ _) eq_refl).
  - rewrite Hi. destruct (py_eq_context i (Some ctx)) eqn:Heq; [|done].
    by apply py_eq_context_true in Heq.
Qed.

Lemma update_state_top σ st w :
  SmartPlug.context plug = None →
  SmartPlug.state plug (world σ) = (Ok st, w) →
  update_state plug σ =
  (Ok tt, with_self
            (set_state (Some (bool_decide (st = SmartPlug.SWITCH_STATE_ON plug))))
            (with_world w σ)).
Proof.
  intros Hctx Hst. unfold update_state, bind, call, modify.
  by rewrite Hctx, Hst.
Qed.

Lemma update_state_child σ ctx info w child v :
  SmartPlug.context plug = Some ctx →
  SmartPlug.sys_info plug (world σ) = (Ok info, w) →
  child_of plug info = Ok child →
  getitem child "state" = Ok v →
  update_state plug σ =
  (Ok tt, with_self (set_state (Some (py_eq_int v 1))) (with_world w σ)).
Proof.
  intros Hctx Hinfo Hchild Hv. unfold update_state. rewrite Hctx.
  unfold bind at 1. rewrite _plug_from_context_eq, Hinfo, Hchild.
  unfold bind, lift, modify. by rewrite Hv.
Qed.

(** *** Runs that return *)

Lemma returns_bind {A B} (m : M W A) (k : A → M W B) σ :
  returns m σ →
  (∀ a σ1, m σ = (Ok a, σ1) → returns (k a) σ1) →
  returns (bind m k) σ.
Proof.
  intros (a & σ1 & Hm & Ht) Hk.
  destruct (Hk a σ1 Hm) as (b & σ2 & Hk1 & Ht2).
  exists b, σ2. rewrite (bind_ok _ _ _ _ _ Hm). split; [done|congruence].
Qed.

Lemma returns_call {A} (c : W → result A * W) σ :
  is_ok (c (world σ)).1 = true → returns (call c) σ.
Proof.
  unfold returns, call. destruct (c (world σ)) as [[a|e|] w]; [|done..].
  intros _. by exists a, (with_world w σ).
Qed.

Lemma returns_lift {A} (r : result A) σ :
  is_ok r = true → returns (W:=W) (lift r) σ.
Proof. destruct r as [a|e|]; [|done..]. intros _. by exists a, σ. Qed.

Lemma returns_modify (g : entity → entity) σ : returns (W:=W) (modify g) σ.
Proof. by exists tt, (with_self g σ). Qed.

Lemma returns_get {A} (g : entity → A) σ : returns (W:=W) (get g) σ.
Proof. by exists (g (self σ)), σ. Qed.

Lemma returns_ret {A} (a : A) σ : returns (W:=W) (ret a) σ.
Proof. by exists a, σ. Qed.

(** Today's entry, present or not, never makes the inner [try] raise. *)
Lemma store_today_returns statics σ : returns (store_today rt statics) σ.
Proof.
  unfold returns, store_today, try_except, bind, observe, lift, modify, ret.
  destruct (statics !! day_of_month rt (world σ)); eauto.
Qed.

Lemma store_today_missing statics σ :
  statics !! day_of_month rt (world σ) = None →
  store_today rt statics σ = (Ok tt, σ).
Proof.
  intros Hnone.
  unfold store_today, try_except, bind, observe, lift, modify, ret.
  by rewrite Hnone.
Qed.

Lemma store_reading_returns readings k digits key σ :
  is_ok (readings key) = true →
  returns (store_reading rt readings k digits key) σ.
Proof.
  intros Hok. unfold store_reading.
  apply returns_bind; [by apply returns_lift|].
  intros x σ1 _. apply returns_modify.
Qed.

Section Responsive.
Hypothesis Hresp : responsive plug.

Lemma update_emeter_returns σ : returns (update_emeter plug rt) σ.
Proof.
  unfold update_emeter.
  pose proof (realtime_ok _ Hresp (world σ)) as Hreal.
  apply returns_bind.
  { apply returns_call.
    by destruct (SmartPlug.get_emeter_realtime plug (world σ)) as [[?|?|] ?]. }
  intros readings σ1 Hcall. apply call_returns in Hcall as (w & Hw & ->).
  rewrite Hw in Hreal. repeat (apply andb_prop in Hreal as [Hreal ?]).
  repeat (apply returns_bind;
          [by apply store_reading_returns | intros [] ? _]).
  apply returns_bind; [apply returns_call, (daily_ok _ Hresp)|].
  intros statics ? _. apply store_today_returns.
Qed.

Lemma _plug_from_context_returns σ :
  SmartPlug.context plug ≠ None →
  ∃ c info w, SmartPlug.sys_info plug (world σ) = (Ok info, w)
    ∧ child_of plug info = Ok c
    ∧ _plug_from_context plug σ = (Ok c, with_world w σ)
    ∧ is_ok (getitem c "alias") = true
    ∧ is_ok (getitem c "state") = true.
Proof.
  intros Hctx. pose proof (sys_info_ok _ Hresp (world σ)) as Hinfo.
  destruct (SmartPlug.sys_info plug (world σ)) as [[info|e|] w] eqn:Hs; [|done..].
  destruct (child_ok _ Hresp _ _ _ Hctx Hs) as (c & Hc & Ha & Hst).
  exists c, info, w. rewrite _plug_from_context_eq, Hs, Hc. done.
Qed.

Lemma update_state_returns σ : returns (update_state plug) σ.
Proof.
  unfold update_state. destruct (SmartPlug.context plug) as [ctx|] eqn:Hctx.
  - destruct (_plug_from_context_returns σ) as (c & info & w & _ & _ & Hp & _ & Hst).
    { by rewrite Hctx. }
    apply returns_bind; [by exists c, (with_world w σ)|].
    intros c' σ1 Hc'. rewrite Hp in Hc'. injection Hc' as <- <-.
    apply returns_bind; [by apply returns_lift|].
    intros v σ1 _. apply returns_modify.
  - apply returns_bind; [apply returns_call, (state_ok _ Hresp)|].
    intros st σ1 _. apply returns_modify.
Qed.

Lemma resolve_identity_returns σ : returns (resolve_identity plug) σ.
Proof.
  unfold resolve_identity.
  apply returns_bind; [apply returns_call, (sys_info_ok _ Hresp)|].
  intros info σ1 _. apply returns_bind; [apply returns_modify|].
  intros [] σ2 _. apply returns_bind; [apply returns_modify|].
  intros [] σ3 _. apply returns_bind; [apply returns_call, (mac_ok _ Hresp)|].
  intros m σ4 _. apply returns_bind; [apply returns_modify|].
  intros [] σ5 _. apply returns_bind; [apply returns_call, (model_ok _ Hresp)|].
  intros md σ6 _. apply returns_bind; [apply returns_modify|].
  intros [] σ7 _. destruct (SmartPlug.context plug) as [ctx|] eqn:Hctx.
  - destruct (_plug_from_context_returns σ7) as (c & i & w & _ & _ & Hp & Ha & _).
    { by rewrite Hctx. }
    apply returns_bind; [by exists c, (with_world w σ7)|].
    intros c' σ8 Hc'. rewrite Hp in Hc'. injection Hc' as <- <-.
    apply returns_bind; [by apply returns_lift|].
    intros a σ9 _. apply returns_bind; [apply returns_modify|].
    intros [] σ10 _. apply returns_modify.
  - apply returns_bind; [apply returns_call, (alias_ok _ Hresp)|].
    intros a σ8 _. apply returns_bind; [apply returns_modify|].
    intros [] σ9 _. apply returns_bind; [apply returns_get|].
    intros m' σ10 _. apply returns_modify.
Qed.

(** Against a responsive device every attempt succeeds and logs nothing. *)
Lemma attempt_update_responsive σ :
  ∃ σ', attempt_update plug rt σ = (Ok tt, σ')
        ∧ _is_ready (self σ') = true
        ∧ trace σ' = trace σ.
Proof.
  assert (returns (attempt_body plug rt) σ) as ([] & σ' & Hbody & Htr).
  { unfold attempt_body. apply returns_bind; [apply returns_get|].
    intros info σ1 _. apply returns_bind.
    { destruct (truthy info);
        [apply returns_ret | apply resolve_identity_returns]. }
    intros [] σ2 _. apply returns_bind; [apply update_state_returns|].
    intros [] σ3 _.
    apply returns_bind; [apply returns_call, (has_emeter_ok _ Hresp)|].
    intros emeter σ4 _. apply returns_bind.
    { destruct emeter; [apply update_emeter_returns | apply returns_ret]. }
    intros [] σ5 _. apply returns_modify. }
  exists σ'. rewrite attempt_update_of_body, Hbody.
  split; [done|]. split; [|done].
  by eapply attempt_body_return_is_ready.
Qed.
End Responsive.

(** *** Errors out of an attempt and out of a refresh *)

(** C1 (amended): no device error ([SmartDeviceException]) and no I/O
    error ([OSError]) leaves [attempt_update] or [async_update]: when the
    body of an attempt raises one of them, [attempt_update] returns
    normally, has written exactly one warning (delay, host, alias, error)
    and has left [_is_ready] as it was on entry; within a refresh, where
    the flag is cleared before the attempt, the attempt therefore ends
    with [_is_ready] unset, a failed attempt.  An exception of any other
    class, such as the [StopIteration] of a child record that is not
    found, is not caught by the handler: it leaves [attempt_update] as it
    was raised, and the refresh in which this happens, after any number
    of failed attempts, does not return normally: it raises the exception
    to its caller, or, for [StopIteration], which the future of the
    executor job cannot carry, never completes. *)
Theorem recoverable_errors_are_caught σ :
  (∀ e σ', attempt_update plug rt σ = (Raise e, σ') → recoverable e = false)
  ∧ (∀ e σ', async_update plug rt σ = (Raise e, σ') → recoverable e = false)
  ∧ (∀ e σ1, attempt_body plug rt σ = (Raise e, σ1) → recoverable e = true →
       attempt_update plug rt σ =
         (Ok tt, with_event (Warning (Retrying SLEEP_TIME (SmartPlug.host plug)
                                        (_alias (self σ1)) e)) σ1)
       ∧ _is_ready (self σ1) = _is_ready (self σ))
  ∧ (∀ e σ1,
       attempt_body plug rt (with_self (set_is_ready false) σ) = (Raise e, σ1) →
       recoverable e = true →
       one_attempt plug rt σ =
         (Ok tt, with_event (Warning (Retrying SLEEP_TIME (SmartPlug.host plug)
                                        (_alias (self σ1)) e)) σ1)
       ∧ _is_ready (self (one_attempt plug rt σ).2) = false)
  ∧ (∀ e σ1, attempt_body plug rt σ = (Raise e, σ1) → recoverable e = false →
       attempt_update plug rt σ = (Raise e, σ1))
  ∧ (∀ k σk e σe,
       (k < MAX_ATTEMPTS)%nat →
       failed_attempts plug rt k σ = Some σk →
       attempt_body plug rt (with_self (set_is_ready false) σk) = (Raise e, σe) →
       recoverable e = false →
       async_update plug rt σ =
         (match e with StopIteration => Hang | _ => Raise e end, σe)).
Proof.
  split; [|split; [|split; [|split; [|split]]]].
  - intros e σ'. apply attempt_update_raise.
  - intros e σ' Hr. unfold async_update in Hr.
    destruct (update_loop_cases MAX_ATTEMPTS σ)
      as [(k & σk & σs & _ & _ & _ & _ & Hl)
         |[(σn & _ & Hl)|(k & σk & r & σe & _ & _ & H1 & _ & Hl)]];
      rewrite Hl in Hr.
    + done.
    + by rewrite attempts_exhausted_eq in Hr.
    + injection Hr as -> ->. rewrite one_attempt_eq in H1.
      apply executor_job_raise in H1 as [H1 _].
      by eapply attempt_update_raise.
  - intros e σ1 Hb He. split.
    + rewrite attempt_update_of_body, Hb. by rewrite He.
    + by apply (attempt_body_raise_keeps_is_ready σ e σ1).
  - intros e σ1 Hb He.
    assert (one_attempt plug rt σ =
            (Ok tt, with_event (Warning (Retrying SLEEP_TIME (SmartPlug.host plug)
                                           (_alias (self σ1)) e)) σ1)) as H1.
    { apply one_attempt_ok. rewrite attempt_update_of_body, Hb. by rewrite He. }
    split; [done|]. rewrite H1. cbn [snd self with_event].
    by rewrite (attempt_body_raise_keeps_is_ready _ e σ1 Hb).
  - intros e σ1 Hb He. rewrite attempt_update_of_body, Hb. by rewrite He.
  - intros k σk e σe Hk Hf Hb He.
    assert (attempt_update plug rt (with_self (set_is_ready false) σk)
            = (Raise e, σe)) as Ha.
    { rewrite attempt_update_of_body, Hb. by rewrite He. }
    unfold async_update.
    replace MAX_ATTEMPTS with (k + S (MAX_ATTEMPTS - S k))%nat by lia.
    rewrite (update_loop_failed _ _ _ _ Hf), update_loop_S.
    rewrite (one_attempt_raised _ _ _ Ha). by destruct e.
Qed.

(** *** Availability over one refresh *)

(** C2: within one [async_update], a first success after [k] failed
    attempts, [k] below [MAX_ATTEMPTS] (so after at most 19 failures),
    ends the call at once with [_available] set: the system is the one
    the successful attempt left, with no further device call, sleep or
    log line.  No failed attempt changes [_available].  And a call that
    turns [_available] from true to false has seen all [MAX_ATTEMPTS]
    attempts fail. *)
Theorem async_update_availability σ :
  (∀ k σk σs,
     (k < MAX_ATTEMPTS)%nat →
     failed_attempts plug rt k σ = Some σk →
     one_attempt plug rt σk = (Ok tt, σs) →
     _is_ready (self σs) = true →
     async_update plug rt σ = (Ok tt, with_self (set_available true) σs)
     ∧ _available (self (async_update plug rt σ).2) = true)
  ∧ (∀ k σk,
       failed_attempts plug rt k σ = Some σk →
       _available (self σk) = _available (self σ))
  ∧ (∀ r σ',
       async_update plug rt σ = (r, σ') →
       _available (self σ) = true →
       _available (self σ') = false →
       r = Ok tt
       ∧ ∃ σn, failed_attempts plug rt MAX_ATTEMPTS σ = Some σn
               ∧ self σ' = set_available false (self σn)).
Proof.
  split; [|split].
  - intros k σk σs Hk Hf H1 Hr.
    assert (async_update plug rt σ
            = (Ok tt, with_self (set_available true) σs)) as Heq.
    { unfold async_update.
      replace MAX_ATTEMPTS with (k + S (MAX_ATTEMPTS - S k))%nat by lia.
      rewrite (update_loop_failed _ _ _ _ Hf), update_loop_S, H1.
      by rewrite Hr. }
    by rewrite Heq.
  - intros k σk. apply failed_attempts_keeps_available.
  - intros r σ' Hrun Hbefore Hafter. unfold async_update in Hrun.
    destruct (update_loop_cases MAX_ATTEMPTS σ)
      as [(k & σk & σs & _ & _ & _ & _ & Hl)
         |[(σn & Hf & Hl)|(k & σk & r1 & σe & _ & Hf & H2 & _ & Hl)]];
      rewrite Hl in Hrun.
    + injection Hrun as _ <-. done.
    + rewrite attempts_exhausted_eq in Hrun. injection Hrun as <- <-.
      split; [done|]. by exists σn.
    + injection Hrun as _ <-.
      pose proof (one_attempt_keeps_available σk) as Hk. rewrite H2 in Hk.
      cbn in Hk. rewrite (failed_attempts_keeps_available _ _ _ Hf) in Hk.
      congruence.
Qed.

(** An attempt on a device that is offline fails at its first query and
    has assigned nothing by then. *)
Lemma attempt_body_offline σ :
  offline plug →
  ∃ e w, recoverable e = true
         ∧ attempt_body plug rt σ = (Raise e, with_world w σ).
Proof.
  intros Hoff.
  destruct (Hoff (world σ)) as ((e1 & w1 & Hs & He1) & (e2 & w2 & Hst & He2)).
  unfold attempt_body, bind at 1, get.
  destruct (truthy (_sysinfo (self σ))).
  - unfold bind at 1, ret.
    destruct (SmartPlug.context plug) as [ctx|] eqn:Hctx.
    + exists e1, w1. split; [done|]. apply bind_raise.
      unfold update_state. rewrite Hctx. apply bind_raise.
      by rewrite _plug_from_context_eq, Hs.
    + exists e2, w2. split; [done|]. apply bind_raise.
      unfold update_state. rewrite Hctx. apply bind_raise.
      unfold call. by rewrite Hst.
  - exists e1, w1. split; [done|]. apply bind_raise.
    unfold resolve_identity. apply bind_raise. unfold call. by rewrite Hs.
Qed.

Lemma update_loop_offline n σ :
  offline plug →
  ∃ σn σ', failed_attempts plug rt (S n) σ = Some σn
    ∧ update_loop plug rt (S n) σ = (Ok tt, σ')
    ∧ self σ' = set_available false (set_is_ready false (self σ)).
Proof.
  intros Hoff. revert σ. induction n as [|n IH]; intros σ;
    destruct (attempt_body_offline (with_self (set_is_ready false) σ) Hoff)
      as (e & w & He & Hb);
    assert (one_attempt plug rt σ =
            (Ok tt, with_event
                      (Warning (Retrying SLEEP_TIME (SmartPlug.host plug)
                                  (_alias (self σ)) e))
                      (with_world w (with_self (set_is_ready false) σ))))
      as H1
      by (apply one_attempt_ok; rewrite attempt_update_of_body, Hb;
          by rewrite He);
    rewrite update_loop_S; cbn [failed_attempts]; rewrite H1;
    cbn [self with_event with_world with_self _is_ready set_is_ready].
  - eexists _, _. split; [done|].
    cbn [update_loop]. rewrite attempts_exhausted_eq. by split.
  - destruct (IH (with_event (Sleep SLEEP_TIME)
                    (with_event
                       (Warning (Retrying SLEEP_TIME (SmartPlug.host plug)
                                   (_alias (self σ)) e))
                       (with_world w (with_self (set_is_ready false) σ)))))
      as (σn & σ' & Hf & Hl & Hs).
    exists σn, σ'. split; [exact Hf|]. split; [exact Hl|].
    rewrite Hs. cbn. by destruct (self σ).
Qed.

(** C10 (amended): when all [MAX_ATTEMPTS] attempts of an [async_update]
    have failed, the call returns normally and what it does after the
    last attempt is to unset [_available] (and to log the transition when
    the flag was set): the identity, [is_on] and the state attributes the
    host reads are those the last failed attempt left.  They are those
    from before the refresh when the device is offline, that is when
    neither its [sys_info] nor its on/off state can be queried: then all
    the attempts fail, the entity ends unavailable, and its identity,
    [is_on] and state attributes are exactly those the host read before
    the refresh. *)
Theorem exhausted_refresh_keeps_snapshot σ :
  (∀ σn,
     failed_attempts plug rt MAX_ATTEMPTS σ = Some σn →
     ∃ σ', async_update plug rt σ = (Ok tt, σ')
        ∧ self σ' = set_available false (self σn)
        ∧ available (self σ') = false
        ∧ identity (self σ') = identity (self σn)
        ∧ is_on (self σ') = is_on (self σn)
        ∧ device_state_attributes (self σ') = device_state_attributes (self σn)
        ∧ world σ' = world σn
        ∧ trace σ' =
            (trace σn ++
             if _available (self σ)
             then [Warning (CouldNotRead (_host (self σn)) (_alias (self σn)))]
             else [])%list)
  ∧ (offline plug →
     ∃ σn σ', failed_attempts plug rt MAX_ATTEMPTS σ = Some σn
        ∧ async_update plug rt σ = (Ok tt, σ')
        ∧ available (self σ') = false
        ∧ identity (self σ') = identity (self σ)
        ∧ is_on (self σ') = is_on (self σ)
        ∧ device_state_attributes (self σ') = device_state_attributes (self σ)).
Proof.
  split.
  - intros σn Hf.
    pose proof (update_loop_failed MAX_ATTEMPTS 0 σ σn Hf) as Hl.
    rewrite Nat.add_0_r in Hl. cbn [update_loop] in Hl.
    rewrite attempts_exhausted_eq in Hl.
    eexists. split; [exact Hl|].
    cbn [self world trace].
    rewrite (failed_attempts_keeps_available _ _ _ Hf).
    by destruct (self σn).
  - intros Hoff.
    destruct (update_loop_offline (pred MAX_ATTEMPTS) σ Hoff)
      as (σn & σ' & Hf & Hl & Hs).
    exists σn, σ'. split; [exact Hf|]. split; [exact Hl|].
    rewrite Hs. by destruct (self σ).
Qed.

(** *** The snapshot over a failed attempt *)

Lemma attempt_update_after_body {B} (f : system W → B) σ r σ1 :
  (∀ ev σ, f (with_event ev σ) = f σ) →
  attempt_body plug rt σ = (r, σ1) →
  f (attempt_update plug rt σ).2 = f σ1.
Proof.
  intros Hev Hb. rewrite attempt_update_of_body, Hb.
  destruct r as [a|e|]; [done| |done].
  destruct (recoverable e); [apply Hev|done].
Qed.

Lemma refresh_emeter_keeps_state :
  keeps (ent _state) (refresh_emeter plug rt).
Proof. unfold refresh_emeter. unfold_methods. frame. Qed.

Lemma refresh_state_keeps_emeter_params :
  keeps (ent _emeter_params) (refresh_state plug).
Proof.
  unfold refresh_state. apply keeps_bind; [frame|]. intros info.
  apply keeps_bind.
  { destruct (truthy info);
      [frame | apply resolve_identity_keeps_emeter_params]. }
  intros _. by apply update_state_keeps.
Qed.

(** The state attributes an attempt leaves are those its metering steps
    leave, started from the attributes of before the attempt. *)
Lemma attempt_update_params_after σ σ1 r σ2 :
  refresh_state plug σ = (Ok tt, σ1) →
  refresh_emeter plug rt σ1 = (r, σ2) →
  _emeter_params (self σ1) = _emeter_params (self σ)
  ∧ _emeter_params (self (attempt_update plug rt σ).2)
    = _emeter_params (self σ2).
Proof.
  intros Hr He. split.
  - pose proof (refresh_state_keeps_emeter_params σ) as Hk.
    by rewrite Hr in Hk.
  - apply (attempt_update_after_body (ent _emeter_params) σ r σ2);
      [done|].
    by rewrite attempt_body_split, (bind_ok _ _ _ _ _ Hr).
Qed.

Ltac metering_steps H :=
  unfold refresh_emeter, update_emeter, store_reading, bind, call, lift,
    modify in H.

(** C3 (amended): an attempt writes in place, so what a failed attempt
    leaves depends on where it failed.  When the failure (of any class)
    comes no later than the reading of the on/off state, the cached
    [_state] and [_emeter_params] are exactly as before the attempt.
    Once the on/off state has been read, the value assigned to [_state]
    stays whatever happens in the metering steps, also when the attempt
    then fails; and the state attributes are then those of before the
    attempt with every reading stored that was formatted before the
    failing step: none when [has_emeter] or the realtime query fails,
    the readings that precede the first one that cannot be read (in the
    order power, total, voltage, current), and all four when it is the
    daily history that fails. *)
Theorem failed_attempt_snapshot σ :
  (∀ e σ1, refresh_state plug σ = (Raise e, σ1) →
     _state (self (attempt_update plug rt σ).2) = _state (self σ)
     ∧ _emeter_params (self (attempt_update plug rt σ).2)
       = _emeter_params (self σ))
  ∧ (∀ σ1, refresh_state plug σ = (Ok tt, σ1) →
     _state (self (attempt_update plug rt σ).2) = _state (self σ1))
  ∧ (∀ σ1, refresh_state plug σ = (Ok tt, σ1) →
     is_ok (SmartPlug.has_emeter plug (world σ1)).1 = false →
     device_state_attributes (self (attempt_update plug rt σ).2)
     = device_state_attributes (self σ))
  ∧ (∀ σ1 w2, refresh_state plug σ = (Ok tt, σ1) →
     SmartPlug.has_emeter plug (world σ1) = (Ok true, w2) →
     is_ok (SmartPlug.get_emeter_realtime plug w2).1 = false →
     device_state_attributes (self (attempt_update plug rt σ).2)
     = device_state_attributes (self σ))
  ∧ (∀ σ1 w2 readings w3 stored slot rest,
     refresh_state plug σ = (Ok tt, σ1) →
     SmartPlug.has_emeter plug (world σ1) = (Ok true, w2) →
     SmartPlug.get_emeter_realtime plug w2 = (Ok readings, w3) →
     reading_slots rt = (stored ++ slot :: rest)%list →
     Forall (λ s, is_ok (readings s.2) = true) stored →
     is_ok (readings slot.2) = false →
     device_state_attributes (self (attempt_update plug rt σ).2)
     = store_slots rt readings stored (device_state_attributes (self σ)))
  ∧ (∀ σ1 w2 readings w3,
     refresh_state plug σ = (Ok tt, σ1) →
     SmartPlug.has_emeter plug (world σ1) = (Ok true, w2) →
     SmartPlug.get_emeter_realtime plug w2 = (Ok readings, w3) →
     Forall (λ s, is_ok (readings s.2) = true) (reading_slots rt) →
     is_ok (SmartPlug.get_emeter_daily plug w3).1 = false →
     device_state_attributes (self (attempt_update plug rt σ).2)
     = store_slots rt readings (reading_slots rt)
         (device_state_attributes (self σ))).
Proof.
  split; [|split; [|split; [|split; [|split]]]].
  - intros e σ1 Hr.
    assert (attempt_body plug rt σ = (Raise e, σ1)) as Hb.
    { rewrite attempt_body_split. by apply bind_raise. }
    split.
    + rewrite (attempt_update_after_body (ent _state) _ _ _ (λ _ _, eq_refl) Hb).
      apply (refresh_state_raise_keeps _state resolve_identity_keeps_state _ _ _ Hr).
    + rewrite (attempt_update_after_body (ent _emeter_params) _ _ _
                 (λ _ _, eq_refl) Hb).
      apply (refresh_state_raise_keeps _emeter_params
               resolve_identity_keeps_emeter_params _ _ _ Hr).
  - intros σ1 Hr.
    destruct (attempt_body plug rt σ) as [r σ2] eqn:Hb.
    rewrite (attempt_update_after_body (ent _state) _ _ _ (λ _ _, eq_refl) Hb).
    rewrite attempt_body_split, (bind_ok _ _ _ _ _ Hr) in Hb.
    pose proof (refresh_emeter_keeps_state σ1) as Hk. by rewrite Hb in Hk.
  - intros σ1 Hr Hhas. unfold device_state_attributes.
    destruct (refresh_emeter plug rt σ1) as [r σ2] eqn:He.
    destruct (attempt_update_params_after σ σ1 r σ2 Hr He) as [<- ->].
    metering_steps He.
    destruct (SmartPlug.has_emeter plug (world σ1)) as [[b|e|] w2];
      [done|by injection He as _ <-..].
  - intros σ1 w2 Hr Hhas Hreal. unfold device_state_attributes.
    destruct (refresh_emeter plug rt σ1) as [r σ2] eqn:He.
    destruct (attempt_update_params_after σ σ1 r σ2 Hr He) as [<- ->].
    metering_steps He. rewrite Hhas in He. cbn [world with_world] in He.
    destruct (SmartPlug.get_emeter_realtime plug w2) as [[b|e|] w3];
      [done|by injection He as _ <-..].
  - intros σ1 w2 readings w3 stored slot rest Hr Hhas Hreal Hslots Hall Hbad.
    unfold device_state_attributes.
    destruct (refresh_emeter plug rt σ1) as [r σ2] eqn:He.
    destruct (attempt_update_params_after σ σ1 r σ2 Hr He) as [<- ->].
    metering_steps He. rewrite Hhas in He. cbn [world with_world] in He.
    rewrite Hreal in He. cbn [world with_world with_self] in He.
    unfold reading_slots in Hslots.
    destruct stored as [|s0 [|s1 [|s2 [|s3 [|s4 stored]]]]]; simplify_eq/=;
      repeat match goal with
             | H : Forall _ (_ :: _) |- _ => apply Forall_cons in H as [? H]
             end; cbn in *;
      repeat match goal with
             | H : is_ok (readings ?k) = true |- _ =>
                 destruct (readings k) as [?|?|]; [|done..]; clear H
             end;
      match goal with
      | H : is_ok (readings ?k) = false |- _ =>
          destruct (readings k) as [?|?|]; [done| |]; clear H
      end; cbn in *; by simplify_eq.
  - intros σ1 w2 readings w3 Hr Hhas Hreal Hall Hdaily.
    unfold device_state_attributes.
    destruct (refresh_emeter plug rt σ1) as [r σ2] eqn:He.
    destruct (attempt_update_params_after σ σ1 r σ2 Hr He) as [<- ->].
    metering_steps He. rewrite Hhas in He. cbn [world with_world] in He.
    rewrite Hreal in He. cbn [world with_world with_self] in He.
    unfold reading_slots in *.
    repeat match goal with
           | H : Forall _ (_ :: _) |- _ => apply Forall_cons in H as [? H]
           end; cbn in *.
    repeat match goal with
           | H : is_ok (readings ?k) = true |- _ =>
               destruct (readings k) as [?|?|]; [|done..]; clear H
           end; cbn in *.
    destruct (SmartPlug.get_emeter_daily plug w3) as [[b|e|] w4];
      [done|by simplify_eq..].
Qed.

(** *** The identity *)

Lemma run_cons o ops σ :
  run plug rt (o :: ops) σ = run plug rt ops (run_op plug rt o σ).
Proof. reflexivity. Qed.

Lemma run_op_keeps_identity o σ :
  truthy (_sysinfo (self σ)) = true →
  identity (self (run_op plug rt o σ)) = identity (self σ).
Proof.
  intros Hres. destruct o; cbn [run_op].
  - apply (update_loop_keeps identity (λ i, truthy i.1.1.1.1.1 = true));
      [done|done| |done].
    intros σ1. apply attempt_update_keeps_identity.
  - by apply attempt_update_keeps_identity.
  - by rewrite turn_on_keeps_self.
  - by apply (turn_off_keeps identity).
  - done.
Qed.

Lemma resolve_identity_return σ a σ1 :
  resolve_identity plug σ = (Ok a, σ1) →
  ∃ info w1 m w2 md w3,
    SmartPlug.sys_info plug (world σ) = (Ok info, w1)
    ∧ SmartPlug.mac plug w1 = (Ok m, w2)
    ∧ SmartPlug.model plug w2 = (Ok md, w3)
    ∧ identity (self σ1)
      = (info, PStr (SmartPlug.host plug), PStr m, PStr md, _alias (self σ1),
         match SmartPlug.context plug with
         | Some c => PStr c
         | None => PStr m
         end)
    ∧ match SmartPlug.context plug with
      | None => ∃ al w4, SmartPlug.alias plug w3 = (Ok al, w4)
                         ∧ _alias (self σ1) = PStr al
      | Some _ => ∃ info' w4 child,
                    SmartPlug.sys_info plug w3 = (Ok info', w4)
                    ∧ child_of plug info' = Ok child
                    ∧ getitem child "alias" = Ok (_alias (self σ1))
      end.
Proof.
  unfold resolve_identity. intros H.
  apply bind_returns in H as (info & ? & Hc & H).
  apply call_returns in Hc as (w1 & Hinfo & ->).
  apply bind_returns in H as ([] & ? & [= <-] & H).
  apply bind_returns in H as ([] & ? & [= <-] & H).
  apply bind_returns in H as (m & ? & Hc & H).
  apply call_returns in Hc as (w2 & Hmac & ->).
  apply bind_returns in H as ([] & ? & [= <-] & H).
  apply bind_returns in H as (md & ? & Hc & H).
  apply call_returns in Hc as (w3 & Hmodel & ->).
  apply bind_returns in H as ([] & ? & [= <-] & H).
  cbn [world with_self with_world] in Hmac, Hmodel.
  exists info, w1, m, w2, md, w3. do 3 (split; [done|]).
  destruct (SmartPlug.context plug) as [ctx|].
  - apply bind_returns in H as (ch & σp & Hp & H).
    rewrite _plug_from_context_eq in Hp. cbn [world with_self with_world] in Hp.
    destruct (SmartPlug.sys_info plug w3) as [[info'|e|] w4] eqn:Hinfo';
      [|done..].
    injection Hp as Hch <-.
    apply bind_returns in H as (al & ? & [= Hal <-] & H).
    apply bind_returns in H as ([] & ? & [= <-] & H).
    injection H as _ <-. cbn. split; [done|].
    by exists info', w4, ch.
  - apply bind_returns in H as (al & ? & Hc & H).
    apply call_returns in Hc as (w4 & Halias & ->).
    apply bind_returns in H as ([] & ? & [= <-] & H).
    apply bind_returns in H as (m' & ? & [= <- <-] & H).
    injection H as _ <-. cbn. split; [done|]. by exists al, w4.
Qed.

(** The attempt that succeeds on an entity whose [_sysinfo] is falsy
    has assigned the identity from what the client returned. *)
Lemma first_success_resolves σ σ' :
  truthy (_sysinfo (self σ)) = false →
  _is_ready (self σ) = false →
  attempt_update plug rt σ = (Ok tt, σ') →
  _is_ready (self σ') = true →
  ∃ info w1 m w2 md w3,
    SmartPlug.sys_info plug (world σ) = (Ok info, w1)
    ∧ SmartPlug.mac plug w1 = (Ok m, w2)
    ∧ SmartPlug.model plug w2 = (Ok md, w3)
    ∧ _sysinfo (self σ') = info
    ∧ _host (self σ') = PStr (SmartPlug.host plug)
    ∧ _mac (self σ') = PStr m
    ∧ _model (self σ') = PStr md
    ∧ unique_id (self σ')
      = match SmartPlug.context plug with
        | Some c => PStr c
        | None => PStr m
        end
    ∧ match SmartPlug.context plug with
      | None => ∃ al w4, SmartPlug.alias plug w3 = (Ok al, w4)
                         ∧ name (self σ') = PStr al
      | Some _ => ∃ info' w4 child,
                    SmartPlug.sys_info plug w3 = (Ok info', w4)
                    ∧ child_of plug info' = Ok child
                    ∧ getitem child "alias" = Ok (name (self σ'))
      end.
Proof.
  intros Hfalsy Hnr Hrun Hr. rewrite attempt_update_of_body in Hrun.
  destruct (attempt_body plug rt σ) as [[[]|e|] σb] eqn:Hb; [| |done].
  - injection Hrun as <-. unfold attempt_body in Hb.
    apply bind_returns in Hb as (info0 & ? & [= <- <-] & Hb).
    rewrite Hfalsy in Hb.
    apply bind_returns in Hb as ([] & σ1 & Hres & Hb).
    pose proof (attempt_rest_keeps_identity σ1) as Hid.
    rewrite Hb in Hid. cbn [snd] in Hid.
    destruct (resolve_identity_return _ _ _ Hres)
      as (info & w1 & m & w2 & md & w3 & Hinfo & Hmac & Hmodel & Hi & Hal).
    rewrite Hi in Hid. injection Hid as Hs Hh Hm Hmd Ha Hd.
    exists info, w1, m, w2, md, w3. unfold unique_id, name.
    rewrite Hs, Hh, Hm, Hmd, Hd, Ha. by do 8 (split; [done|]).
  - pose proof (attempt_body_raise_keeps_is_ready _ _ _ Hb) as Hk.
    destruct (recoverable e); [|done]. injection Hrun as <-.
    cbn in *. congruence.
Qed.

(** C4 (amended): the guard of the resolution is [if not self._sysinfo],
    the truth value of the stored answer.  Once [_sysinfo] holds a
    non-empty device answer, no sequence of attempts, refreshes and
    commands, with the outside world changing in between, assigns any
    identity field again: the host address, the hardware address, the
    model, the alias and the unique id are those of the first resolution.
    While [_sysinfo] is falsy, which it still is after a resolution that
    stored an empty answer, the attempt that succeeds within a refresh
    resolves the identity again: the fields are then what the client
    returns in that attempt, whatever they were before. *)
Theorem identity_never_overwritten ops σ :
  (truthy (_sysinfo (self σ)) = true →
   identity (self (run plug rt ops σ)) = identity (self σ)
   ∧ unique_id (self (run plug rt ops σ)) = unique_id (self σ)
   ∧ name (self (run plug rt ops σ)) = name (self σ))
  ∧ (truthy (_sysinfo (self σ)) = false →
     ∀ σ',
       _is_ready (self σ) = false →
       attempt_update plug rt σ = (Ok tt, σ') →
       _is_ready (self σ') = true →
       ∃ info w1 m w2 md w3,
         SmartPlug.sys_info plug (world σ) = (Ok info, w1)
         ∧ SmartPlug.mac plug w1 = (Ok m, w2)
         ∧ SmartPlug.model plug w2 = (Ok md, w3)
         ∧ _sysinfo (self σ') = info
         ∧ _host (self σ') = PStr (SmartPlug.host plug)
         ∧ _mac (self σ') = PStr m
         ∧ _model (self σ') = PStr md
         ∧ unique_id (self σ')
           = match SmartPlug.context plug with
             | Some c => PStr c
             | None => PStr m
             end
         ∧ match SmartPlug.context plug with
           | None => ∃ al w4, SmartPlug.alias plug w3 = (Ok al, w4)
                              ∧ name (self σ') = PStr al
           | Some _ => ∃ info' w4 child,
                         SmartPlug.sys_info plug w3 = (Ok info', w4)
                         ∧ child_of plug info' = Ok child
                         ∧ getitem child "alias" = Ok (name (self σ'))
           end).
Proof.
  split; [|intros Hfalsy σ' Hnr Hrun Hr; by apply first_success_resolves].
  intros Hres.
  assert (identity (self (run plug rt ops σ)) = identity (self σ)) as Hid.
  { revert σ Hres. induction ops as [|o ops IH]; intros σ Hres; [done|].
    rewrite run_cons.
    pose proof (run_op_keeps_identity o σ Hres) as Ho.
    assert (truthy (_sysinfo (self (run_op plug rt o σ))) = true) as Hres'.
    { change (_sysinfo (self (run_op plug rt o σ)))
        with (identity (self (run_op plug rt o σ))).1.1.1.1.1.
      by rewrite Ho. }
    by rewrite (IH _ Hres'). }
  split; [done|].
  unfold unique_id, name.
  split; [exact (f_equal snd Hid) | exact (f_equal (λ i, i.1.2) Hid)].
Qed.

(** *** The on/off state *)

Lemma py_eq_int_one v : py_eq_int v 1 = true ↔ spec_equals_one v.
Proof.
  destruct v as [|b|z|q|s|l|d]; cbn; try (split; [done|tauto]).
  - by destruct b.
  - apply Z.eqb_eq.
  - apply QArith_base.Qeq_bool_iff.
Qed.

Lemma is_on_decides (b : bool) (P : Prop) :
  (b = true ↔ P) →
  (Some b = Some true ↔ P) ∧ (Some b = Some false ↔ ¬ P).
Proof. destruct b; intuition congruence. Qed.



(** *** The commands *)

(** C9: [turn_on] is the client's command and nothing else: the result
    and the outside world are those of the command, and the entity (state,
    meter readings, availability, identity) and the log are untouched. *)
Theorem turn_on_changes_no_cache σ :
  turn_on plug σ =
    ((SmartPlug.turn_on plug (world σ)).1,
     with_world (SmartPlug.turn_on plug (world σ)).2 σ)
  ∧ self (turn_on plug σ).2 = self σ
  ∧ trace (turn_on plug σ).2 = trace σ.
Proof.
  unfold turn_on, call.
  by destruct (SmartPlug.turn_on plug (world σ)) as [r w].
Qed.

(** C8: [turn_off] sends the client's command and then runs
    [update_state] once on what the device then reports: its outcome is
    that of this single derivation, with no retry and no log line.  It
    assigns nothing but the on/off state: the identity, the state
    attributes and the two flags are as before.  When the command and
    the reading that follows it succeed, the call returns and the cached
    [is_on] tells the state read after the command: without a context it
    is true when that state is [SWITCH_STATE_ON] and false otherwise; with
    a context it is true when the [state] field of the addressed child
    record equals 1 and false otherwise.  A command that raises is not
    followed by any derivation. *)
Theorem turn_off_rederives_state σ :
  (∀ w, SmartPlug.turn_off plug (world σ) = (Ok tt, w) →
     turn_off plug σ = update_state plug (with_world w σ))
  ∧ (∀ e w, SmartPlug.turn_off plug (world σ) = (Raise e, w) →
       turn_off plug σ = (Raise e, with_world w σ))
  ∧ (identity (self (turn_off plug σ).2) = identity (self σ)
     ∧ device_state_attributes (self (turn_off plug σ).2)
       = device_state_attributes (self σ)
     ∧ available (self (turn_off plug σ).2) = available (self σ)
     ∧ _is_ready (self (turn_off plug σ).2) = _is_ready (self σ))
  ∧ trace (turn_off plug σ).2 = trace σ
  ∧ (∀ w st w',
       SmartPlug.context plug = None →
       SmartPlug.turn_off plug (world σ) = (Ok tt, w) →
       SmartPlug.state plug w = (Ok st, w') →
       (turn_off plug σ).1 = Ok tt
       ∧ world (turn_off plug σ).2 = w'
       ∧ (is_on (self (turn_off plug σ).2) = Some true
          ↔ st = SmartPlug.SWITCH_STATE_ON plug)
       ∧ (is_on (self (turn_off plug σ).2) = Some false
          ↔ st ≠ SmartPlug.SWITCH_STATE_ON plug))
  ∧ (∀ ctx w info w' pre child post v,
       SmartPlug.context plug = Some ctx →
       SmartPlug.turn_off plug (world σ) = (Ok tt, w) →
       SmartPlug.sys_info plug w = (Ok info, w') →
       getitem info "children" = Ok (PList (pre ++ child :: post)) →
       Forall (λ c, ∃ i, getitem c "id" = Ok i ∧ i ≠ PStr ctx) pre →
       getitem child "id" = Ok (PStr ctx) →
       getitem child "state" = Ok v →
       (turn_off plug σ).1 = Ok tt
       ∧ world (turn_off plug σ).2 = w'
       ∧ (is_on (self (turn_off plug σ).2) = Some true
          ↔ spec_equals_one v)
       ∧ (is_on (self (turn_off plug σ).2) = Some false
          ↔ ¬ spec_equals_one v)).
Proof.
  assert (∀ w, SmartPlug.turn_off plug (world σ) = (Ok tt, w) →
               turn_off plug σ = update_state plug (with_world w σ)) as Hok.
  { intros w Hw. unfold turn_off, bind, call. by rewrite Hw. }
  split; [done|]. split; [|split; [|split; [|split]]].
  - intros e w Hw. unfold turn_off, bind, call. by rewrite Hw.
  - split; [by apply (turn_off_keeps identity)|].
    split; [by apply (turn_off_keeps _emeter_params)|].
    split; [by apply (turn_off_keeps _available)|].
    by apply (turn_off_keeps _is_ready).
  - apply turn_off_keeps_trace.
  - intros w st w' Hctx Hw Hst. rewrite (Hok w Hw).
    rewrite (update_state_top (with_world w σ) st w' Hctx Hst).
    cbn [fst snd self world with_self with_world is_on _state set_state].
    split; [done|]. split; [done|].
    apply is_on_decides, bool_decide_eq_true.
  - intros ctx w info w' pre child post v Hctx Hw Hinfo Hch Hpre Hid Hv.
    rewrite (Hok w Hw).
    assert (update_state plug (with_world w σ) =
            (Ok tt, with_self (set_state (Some (py_eq_int v 1)))
                      (with_world w' (with_world w σ)))) as ->.
    { apply (update_state_child (with_world w σ) ctx info w' child v);
        [done..| |done].
      unfold child_of. rewrite Hch, Hctx. cbn [py_iter].
      by apply next_child_first. }
    cbn [fst snd self world with_self with_world is_on _state set_state].
    split; [done|]. split; [done|].
    apply is_on_decides, py_eq_int_one.
Qed.

(** *** Devices without metering *)

Lemma attempt_update_no_emeter :
  no_emeter plug → keeps (ent _emeter_params) (attempt_update plug rt).
Proof.
  intros Hno. unfold attempt_update. apply keeps_try_except.
  - unfold attempt_body. apply keeps_bind; [frame|]. intros info.
    apply keeps_bind.
    { destruct (truthy info);
        [frame | apply resolve_identity_keeps_emeter_params]. }
    intros _. apply keeps_bind; [by apply update_state_keeps|].
    intros _ σ. apply (bind_keeps_at (ent _emeter_params)).
    { exact (keeps_call (ent _emeter_params) _ (λ _ _, eq_refl) σ). }
    intros emeter σ1 Hc. apply call_returns in Hc as (w & Hw & ->).
    rewrite (Hno _ _ _ Hw). by cbn.
  - intros e k Hk. destruct (recoverable e); simplify_eq. frame.
Qed.

Lemma run_op_no_emeter o σ :
  no_emeter plug →
  _emeter_params (self (run_op plug rt o σ)) = _emeter_params (self σ).
Proof.
  intros Hno. destruct o; cbn [run_op].
  - apply (update_loop_keeps _emeter_params (λ _, True)); [done|done| |done].
    intros σ1 _. by apply attempt_update_no_emeter.
  - by apply attempt_update_no_emeter.
  - by rewrite turn_on_keeps_self.
  - by apply (turn_off_keeps _emeter_params).
  - done.
Qed.

(** C7: for a device that never advertises metering, the state
    attributes of a fresh entity stay empty over every sequence of
    refreshes, attempts and commands, with the outside world changing in
    between; no operation writes an entry. *)
Theorem no_emeter_keeps_params_empty ops w :
  no_emeter plug →
  device_state_attributes (self (run plug rt ops (start w))) = ∅.
Proof.
  intros Hno. unfold device_state_attributes.
  change (∅ : gmap string string) with (_emeter_params (self (start w))).
  generalize (start w). induction ops as [|o ops IH]; intros σ; [done|].
  by rewrite run_cons, IH, run_op_no_emeter.
Qed.

(** *** A history without today's entry *)

Section Today.
Hypothesis Hfresh : ATTR_TODAY_ENERGY_KWH rt ∉ realtime_keys rt.
Hypothesis Hnone : no_today_entry plug rt.

Local Abbreviation today :=
  (λ en : entity, _emeter_params en !! ATTR_TODAY_ENERGY_KWH rt).

Lemma store_reading_keeps_today readings k digits key :
  k ∈ realtime_keys rt →
  keeps (ent today) (store_reading rt readings k digits key).
Proof.
  intros Hk. unfold store_reading. apply keeps_bind; [frame|].
  intros x. apply keeps_modify. intros σ. cbn.
  apply lookup_insert_ne. by intros ->.
Qed.

Lemma update_emeter_keeps_today : keeps (ent today) (update_emeter plug rt).
Proof.
  unfold update_emeter. apply keeps_bind; [frame|]. intros readings.
  repeat (apply keeps_bind;
          [apply store_reading_keeps_today; unfold realtime_keys; set_solver
          |intros _]).
  intros σ. apply (bind_keeps_at (ent today));
    [exact (keeps_call (ent today) _ (λ _ _, eq_refl) σ)|].
  intros statics σ1 Hc. apply call_returns in Hc as (w & Hw & ->).
  rewrite store_today_missing; [done|]. exact (Hnone _ _ _ Hw).
Qed.

Lemma attempt_update_keeps_today : keeps (ent today) (attempt_update plug rt).
Proof.
  pose proof update_emeter_keeps_today.
  unfold attempt_update, attempt_body, resolve_identity, update_state,
    _plug_from_context.
  frame.
Qed.

(** C6 (amended): the attribute name of today's energy being none of the
    four realtime names, when no daily history the device hands out has an
    entry for the current day of the month, the missing entry is skipped
    silently (the inner [try] returns, writes nothing and logs nothing),
    and today's field of the state attributes keeps, over an attempt and
    over a whole refresh, the value it had before: it is absent after the
    refresh exactly when it was absent before.  The attempt is marked
    successful all the same: against a device that answers every query
    it returns with [_is_ready] set and logs nothing. *)
Theorem missing_today_entry σ :
  (∀ statics,
     statics !! day_of_month rt (world σ) = None →
     store_today rt statics σ = (Ok tt, σ))
  ∧ today (self (attempt_update plug rt σ).2) = today (self σ)
  ∧ today (self (async_update plug rt σ).2) = today (self σ)
  ∧ (responsive plug →
     ∃ σ', attempt_update plug rt σ = (Ok tt, σ')
           ∧ _is_ready (self σ') = true
           ∧ trace σ' = trace σ).
Proof.
  split; [|split; [|split]].
  - intros statics. apply store_today_missing.
  - apply attempt_update_keeps_today.
  - apply (update_loop_keeps today (λ _, True)); [done|done| |done].
    intros σ1 _. apply attempt_update_keeps_today.
  - intros Hresp. by apply attempt_update_responsive.
Qed.
End Today.
End Properties.

(** ** Further properties of the class *)
Section MoreProperties.
Context {W Num : Type}.
Variable plug : SmartPlug.client W Num.
Variable rt : Runtime W Num.

Implicit Types (σ : system W) (e : exn).

Local Abbreviation ent f := (λ σ : system W, f (self σ)).

Ltac unfold_methods :=
  unfold attempt_update, attempt_body, resolve_identity, update_emeter,
    store_today, store_reading, update_state, _plug_from_context,
    turn_off, turn_on, attempts_exhausted.

(** *** What a refresh writes to the log *)

Lemma attempt_body_keeps_trace : keeps (W:=W) trace (attempt_body plug rt).
Proof. unfold_methods. frame. Qed.

(** A pass that returns not ready has caught one device or I/O error and
    logged it; nothing else of the log moved. *)
Lemma one_attempt_failed σ σ1 :
  one_attempt plug rt σ = (Ok tt, σ1) →
  _is_ready (self σ1) = false →
  ∃ e, recoverable e = true
       ∧ trace σ1 =
         (trace σ ++ [Warning (Retrying SLEEP_TIME (SmartPlug.host plug)
                                 (_alias (self σ1)) e)])%list.
Proof.
  rewrite one_attempt_ok, attempt_update_of_body. intros Hrun Hready.
  pose proof (attempt_body_keeps_trace (with_self (set_is_ready false) σ))
    as Htr.
  destruct (attempt_body plug rt _) as [[a|e|] σb] eqn:Hb; [| |done].
  - injection Hrun as _ <-.
    by rewrite (attempt_body_return_is_ready _ _ _ _ _ Hb) in Hready.
  - destruct (recoverable e) eqn:He; [|done].
    injection Hrun as <-. exists e. split; [done|].
    cbn in *. by rewrite Htr.
Qed.

(** A pass that returns ready has logged nothing. *)
Lemma one_attempt_succeeded σ σ1 :
  one_attempt plug rt σ = (Ok tt, σ1) →
  _is_ready (self σ1) = true →
  attempt_body plug rt (with_self (set_is_ready false) σ) = (Ok tt, σ1)
  ∧ trace σ1 = trace σ.
Proof.
  rewrite one_attempt_ok, attempt_update_of_body. intros Hrun Hready.
  pose proof (attempt_body_keeps_trace (with_self (set_is_ready false) σ))
    as Htr.
  destruct (attempt_body plug rt _) as [[[]|e|] σb] eqn:Hb; [| |done].
  - by injection Hrun as <-.
  - pose proof (attempt_body_raise_keeps_is_ready _ _ _ _ _ Hb) as Hk.
    destruct (recoverable e); [|done]. injection Hrun as <-.
    cbn in *. congruence.
Qed.

Lemma failed_attempts_trace k σ σk :
  failed_attempts plug rt k σ = Some σk →
  ∃ l, length l = k
       ∧ Forall (λ ae, recoverable ae.2 = true) l
       ∧ trace σk = (trace σ ++ retry_events (SmartPlug.host plug) l)%list.
Proof.
  revert σ. induction k as [|k IH]; intros σ Hk.
  - injection Hk as ->. exists []. by rewrite app_nil_r.
  - cbn [failed_attempts] in Hk.
    destruct (one_attempt plug rt σ) as [[[]|e|] σ1] eqn:H1; [|done..].
    destruct (_is_ready (self σ1)) eqn:Hr; [done|].
    destruct (one_attempt_failed _ _ H1 Hr) as (e & He & Ht).
    destruct (IH _ Hk) as (l & Hlen & Hall & Htr).
    exists ((_alias (self σ1), e) :: l). split; [by rewrite <- Hlen|].
    split; [by constructor|].
    rewrite Htr. cbn [trace with_event retry_events flat_map fst snd].
    rewrite Ht. fold (retry_events (SmartPlug.host plug) l).
    by rewrite <- !app_assoc.
Qed.

(** X1: the log and the sleeps of a refresh that returns.  Each failed
    attempt contributes its retry warning followed by one sleep of
    [SLEEP_TIME], also the twentieth; every logged error is a device or
    I/O error.  A refresh that ends available had fewer than
    [MAX_ATTEMPTS] failures and writes nothing else.  A refresh that ends
    unavailable had exactly [MAX_ATTEMPTS] failures and then logs the
    transition once, if and only if the entity was available before. *)
Theorem refresh_log σ σ' :
  async_update plug rt σ = (Ok tt, σ') →
  ∃ l, Forall (λ ae, recoverable ae.2 = true) l
    ∧ ((length l < MAX_ATTEMPTS)%nat
        ∧ _available (self σ') = true
        ∧ trace σ' = (trace σ ++ retry_events (SmartPlug.host plug) l)%list
       ∨ length l = MAX_ATTEMPTS
        ∧ _available (self σ') = false
        ∧ trace σ' =
          (trace σ ++ retry_events (SmartPlug.host plug) l ++
           if _available (self σ)
           then [Warning (CouldNotRead (_host (self σ')) (_alias (self σ')))]
           else [])%list).
Proof.
  intros Hrun. unfold async_update in Hrun.
  destruct (update_loop_cases plug rt MAX_ATTEMPTS σ)
    as [(k & σk & σs & Hk & Hf & H1 & Hr & Hl)
       |[(σn & Hf & Hl)|(k & σk & r1 & σe & _ & _ & _ & Hnok & Hl)]];
    rewrite Hl in Hrun; [| |by injection Hrun as -> ->].
  - injection Hrun as <-.
    destruct (failed_attempts_trace _ _ _ Hf) as (l & Hlen & Hall & Htr).
    exists l. split; [done|]. left. split; [by rewrite Hlen|].
    split; [done|]. cbn.
    by rewrite (proj2 (one_attempt_succeeded _ _ H1 Hr)).
  - rewrite attempts_exhausted_eq in Hrun. injection Hrun as <-.
    destruct (failed_attempts_trace _ _ _ Hf) as (l & Hlen & Hall & Htr).
    exists l. split; [done|]. right. split; [done|]. split; [done|].
    cbn. rewrite (failed_attempts_keeps_available _ _ _ _ _ Hf), Htr.
    by rewrite <- app_assoc.
Qed.

(** X2: after a refresh that returns, [available] tells whether its last
    attempt succeeded: [_available] and [_is_ready] agree.  A refresh
    that raises, or that never completes, leaves [_available] as it
    was. *)
Theorem available_iff_ready σ :
  match async_update plug rt σ with
  | (Ok _, σ') => _available (self σ') = _is_ready (self σ')
  | (Raise _, σ') => _available (self σ') = _available (self σ)
  | (Hang, σ') => _available (self σ') = _available (self σ)
  end.
Proof.
  unfold async_update.
  destruct (update_loop_cases plug rt MAX_ATTEMPTS σ)
    as [(k & σk & σs & Hk & Hf & H1 & Hr & Hl)
       |[(σn & Hf & Hl)|(k & σk & r1 & σe & Hk & Hf & H1 & Hnok & Hl)]];
    rewrite Hl.
  - cbn. by rewrite Hr.
  - rewrite attempts_exhausted_eq. cbn.
    assert (MAX_ATTEMPTS = S (pred MAX_ATTEMPTS)) as Hmax by done.
    rewrite Hmax in Hf. clear Hl Hmax. revert σ Hf.
    generalize (pred MAX_ATTEMPTS). intros n. induction n as [|n IH]; intros σ Hf.
    + cbn [failed_attempts] in Hf.
      destruct (one_attempt plug rt σ) as [[[]|e|] σ1]; [|done..].
      destruct (_is_ready (self σ1)) eqn:Hr; [done|].
      injection Hf as <-. by cbn.
    + cbn [failed_attempts] in Hf.
      destruct (one_attempt plug rt σ) as [[[]|e|] σ1]; [|done..].
      destruct (_is_ready (self σ1)); [done|]. by apply (IH _ Hf).
  - pose proof (one_attempt_keeps_available plug rt σk) as Hav.
    rewrite H1 in Hav. cbn in Hav.
    rewrite (failed_attempts_keeps_available _ _ _ _ _ Hf) in Hav.
    by destruct r1.
Qed.

(** X3: against a device that answers every query, a refresh succeeds
    at its first attempt: it returns available and ready, and it neither
    sleeps nor logs. *)
Theorem responsive_refresh σ :
  responsive plug →
  ∃ σ', async_update plug rt σ = (Ok tt, σ')
        ∧ available (self σ') = true
        ∧ _is_ready (self σ') = true
        ∧ trace σ' = trace σ.
Proof.
  intros Hresp.
  destruct (attempt_update_responsive plug rt Hresp
              (with_self (set_is_ready false) σ)) as (σ1 & H1 & Hr & Ht).
  exists (with_self (set_available true) σ1).
  unfold async_update, MAX_ATTEMPTS.
  apply one_attempt_ok in H1. rewrite update_loop_S, H1, Hr. done.
Qed.

(** *** A device that cannot be reached *)

Lemma attempt_update_unreachable σ :
  unreachable plug →
  truthy (_sysinfo (self σ)) = false →
  ∃ e w, SmartPlug.sys_info plug (world σ) = (Raise e, w)
         ∧ recoverable e = true
         ∧ attempt_update plug rt σ =
           (Ok tt, with_event
                     (Warning (Retrying SLEEP_TIME (SmartPlug.host plug)
                                 (_alias (self σ)) e))
                     (with_world w σ)).
Proof.
  intros Hun Hfalsy. destruct (Hun (world σ)) as (e & w & Hs & He).
  exists e, w. split; [done|]. split; [done|].
  rewrite attempt_update_of_body.
  assert (attempt_body plug rt σ = (Raise e, with_world w σ)) as ->.
  { unfold attempt_body, bind at 1, get. rewrite Hfalsy.
    apply bind_raise. unfold resolve_identity. apply bind_raise.
    unfold call. by rewrite Hs. }
  by rewrite He.
Qed.

Lemma update_loop_unreachable n σ :
  unreachable plug →
  truthy (_sysinfo (self σ)) = false →
  ∃ σ', update_loop plug rt (S n) σ = (Ok tt, σ')
        ∧ self σ' = set_available false (set_is_ready false (self σ)).
Proof.
  intros Hun. revert σ. induction n as [|n IH]; intros σ Hfalsy;
    destruct (attempt_update_unreachable (with_self (set_is_ready false) σ)
                Hun Hfalsy) as (e & w & _ & _ & Ha);
    apply one_attempt_ok in Ha; rewrite update_loop_S, Ha;
    cbn [self with_event with_world with_self _is_ready set_is_ready].
  - cbn [update_loop]. rewrite attempts_exhausted_eq. eexists. by split.
  - destruct (IH (with_event (Sleep SLEEP_TIME)
                    (with_event
                       (Warning (Retrying SLEEP_TIME (SmartPlug.host plug)
                                   (_alias (self σ)) e))
                       (with_world w (with_self (set_is_ready false) σ)))))
      as (σ' & Hl & Hself); [done|].
    exists σ'. split; [exact Hl|]. rewrite Hself. cbn. by destruct (self σ).
Qed.

(** X4: while the identity is unresolved and no [sys_info] query reaches
    the device, a refresh uses up its attempts and returns: it unsets
    [_available] and [_is_ready] and leaves every other attribute of the
    entity (identity, on/off state, state attributes) as it was before
    the refresh. *)
Theorem unreachable_refresh σ :
  unreachable plug →
  truthy (_sysinfo (self σ)) = false →
  ∃ σ', async_update plug rt σ = (Ok tt, σ')
        ∧ self σ' = set_available false (set_is_ready false (self σ)).
Proof. intros Hun Hfalsy. by apply update_loop_unreachable. Qed.

(** *** Relations every step preserves *)

Section Preserve.
Variable R : system W → system W → Prop.
Hypothesis R_preorder : PreOrder R.
Hypothesis R_self : ∀ σ σ', self σ' = self σ → R σ σ'.

Lemma preserves_keeps_self {A} (m : M W A) : keeps self m → preserves R m.
Proof. intros Hm σ. apply R_self, Hm. Qed.

Lemma preserves_bind {A B} (m : M W A) (k : A → M W B) :
  preserves R m → (∀ a, preserves R (k a)) → preserves R (bind m k).
Proof.
  intros Hm Hk σ. unfold bind. specialize (Hm σ).
  destruct (m σ) as [[a|e|] σ1]; cbn in *; [|done..].
  by transitivity σ1; [|apply Hk].
Qed.

Lemma preserves_try_except {A} (m : M W A) (h : exn → option (M W A)) :
  preserves R m → (∀ e k, h e = Some k → preserves R k) →
  preserves R (try_except m h).
Proof.
  intros Hm Hh σ. unfold try_except. specialize (Hm σ).
  destruct (m σ) as [[a|e|] σ1]; cbn in *; [done| |done].
  destruct (h e) as [k|] eqn:He; [|done].
  by transitivity σ1; [|apply (Hh e k He)].
Qed.

Lemma preserves_executor_job {A} (job : M W A) :
  preserves R job → preserves R (async_add_executor_job job).
Proof. intros Hj σ. rewrite executor_job_state. apply Hj. Qed.

Lemma preserves_modify (g : entity → entity) :
  (∀ σ, R σ (with_self g σ)) → preserves R (modify g).
Proof. intros Hg σ. apply Hg. Qed.
End Preserve.

Ltac preserve_step :=
  lazymatch goal with
  | |- preserves _ (bind _ _) => apply preserves_bind; [apply _| |intros ?]
  | |- preserves _ (try_except _ _) =>
      apply preserves_try_except;
      [apply _|
      |let e := fresh "e" in let k := fresh "k" in let H := fresh "H" in
       intros e k H; destruct e; simpl in H; simplify_eq]
  | |- preserves _ (modify _) => apply preserves_modify
  | |- preserves _ (match ?x with _ => _ end) => destruct x
  | |- preserves _ _ => apply preserves_keeps_self; [done|frame]
  end.

#[local] Instance state_known_preorder : PreOrder (state_known (W:=W)).
Proof.
  split; [intros σ Hs; exact Hs|intros σ1 σ2 σ3 H1 H2 Hs; exact (H2 (H1 Hs))].
Qed.

#[local] Instance params_grow_preorder : PreOrder (params_grow (W:=W)).
Proof.
  split; [intros σ; unfold params_grow; set_solver|].
  intros σ1 σ2 σ3 H1 H2. unfold params_grow in *. set_solver.
Qed.

Lemma state_known_self σ σ' : self σ' = self σ → state_known σ σ'.
Proof. unfold state_known. by intros ->. Qed.

Lemma params_grow_self σ σ' : self σ' = self σ → params_grow σ σ'.
Proof. unfold params_grow. by intros ->. Qed.

Lemma attempt_update_state_known :
  preserves state_known (attempt_update plug rt).
Proof.
  pose proof state_known_self. unfold_methods.
  repeat preserve_step; intros σ; unfold state_known; cbn; eauto.
Qed.

Lemma attempt_update_params_grow :
  preserves params_grow (attempt_update plug rt).
Proof.
  pose proof params_grow_self. unfold_methods.
  repeat preserve_step; intros σ; unfold params_grow; cbn; set_solver.
Qed.

Lemma turn_off_state_known : preserves state_known (turn_off plug).
Proof.
  pose proof state_known_self.
  unfold turn_off, update_state, _plug_from_context.
  repeat preserve_step; intros σ; unfold state_known; cbn; eauto.
Qed.

(** The loop preserves what its attempts preserve, when the flags, the
    log and the sleeps do not matter to the relation. *)
Lemma update_loop_preserves (R : system W → system W → Prop) n :
  PreOrder R →
  (∀ σ σ', _state (self σ') = _state (self σ) →
           _emeter_params (self σ') = _emeter_params (self σ) → R σ σ') →
  preserves R (attempt_update plug rt) →
  preserves R (update_loop plug rt n).
Proof.
  intros HR Hflags Hatt.
  assert (∀ σ σ', self σ' = self σ → R σ σ') as Hself.
  { intros σ σ' Hs. apply Hflags; by rewrite Hs. }
  induction n as [|n IH]; cbn [update_loop]; unfold attempts_exhausted.
  - repeat preserve_step; intros σ; by apply Hflags.
  - apply preserves_bind; [done|apply preserves_modify|intros _].
    { intros σ. by apply Hflags. }
    apply preserves_bind; [done|by apply preserves_executor_job|intros _].
    apply preserves_bind; [done|apply preserves_keeps_self; [done|frame]|].
    intros ready. destruct ready.
    + apply preserves_modify. intros σ. by apply Hflags.
    + apply preserves_bind; [done| |intros _; exact IH].
      apply preserves_keeps_self; [done|frame].
Qed.

Lemma run_op_state_known o σ : state_known σ (run_op plug rt o σ).
Proof.
  destruct o; cbn [run_op].
  - apply (update_loop_preserves state_known); [apply _| |].
    + intros σ1 σ2 Hs _. unfold state_known. by rewrite Hs.
    + apply attempt_update_state_known.
  - apply attempt_update_state_known.
  - apply state_known_self, turn_on_keeps_self.
  - apply turn_off_state_known.
  - by apply state_known_self.
Qed.

Lemma run_op_params_grow o σ : params_grow σ (run_op plug rt o σ).
Proof.
  destruct o; cbn [run_op].
  - apply (update_loop_preserves params_grow); [apply _| |].
    + intros σ1 σ2 _ Hp. unfold params_grow. by rewrite Hp.
    + apply attempt_update_params_grow.
  - apply attempt_update_params_grow.
  - apply params_grow_self, turn_on_keeps_self.
  - unfold params_grow.
    by rewrite (turn_off_keeps plug _emeter_params (λ _ _, eq_refl) σ).
  - by apply params_grow_self.
Qed.

(** X5: no operation ever removes a state attribute: over every sequence
    of refreshes, attempts and commands, with the outside world changing
    in between, each key of [device_state_attributes] stays a key. *)
Theorem state_attributes_never_shrink ops σ :
  dom (device_state_attributes (self σ))
  ⊆ dom (device_state_attributes (self (run plug rt ops σ))).
Proof.
  revert σ. induction ops as [|o ops IH]; intros σ; [done|].
  rewrite run_cons. etransitivity; [|apply IH]. apply run_op_params_grow.
Qed.

(** *** Availability and the on/off state *)

Lemma update_state_return_known σ a σ' :
  update_state plug σ = (Ok a, σ') → is_Some (_state (self σ')).
Proof.
  unfold update_state. destruct (SmartPlug.context plug); intros H;
    repeat (apply bind_returns in H; destruct H as (? & ? & _ & H));
    injection H as _ <-; by eexists.
Qed.

Lemma attempt_body_return_known σ a σ' :
  attempt_body plug rt σ = (Ok a, σ') → is_Some (_state (self σ')).
Proof.
  rewrite attempt_body_split. intros H.
  apply bind_returns in H as ([] & σ1 & Hs & He).
  pose proof (refresh_emeter_keeps_state plug rt σ1) as Hk.
  rewrite He in Hk. cbn in Hk. rewrite Hk.
  unfold refresh_state in Hs.
  repeat (apply bind_returns in Hs; destruct Hs as (? & ? & _ & Hs)).
  by eapply update_state_return_known.
Qed.

(** An entity that is available knows its on/off state. *)
Lemma run_op_available_known o σ :
  (_available (self σ) = true → is_Some (_state (self σ))) →
  _available (self (run_op plug rt o σ)) = true →
  is_Some (_state (self (run_op plug rt o σ))).
Proof.
  intros Hinv. pose proof (run_op_state_known o σ) as Hmono.
  destruct o; cbn [run_op] in *.
  - unfold async_update in *.
    destruct (update_loop_cases plug rt MAX_ATTEMPTS σ)
      as [(k & σk & σs & Hk & Hf & H1 & Hr & Hl)
         |[(σn & Hf & Hl)|(k & σk & e1 & σe & Hk & Hf & H1 & _ & Hl)]];
      rewrite Hl in *.
    + intros _. cbn.
      destruct (one_attempt_succeeded _ _ H1 Hr) as [Hb _].
      by eapply attempt_body_return_known.
    + rewrite attempts_exhausted_eq. by cbn.
    + pose proof (one_attempt_keeps_available plug rt σk) as Hk'.
      rewrite H1 in Hk'. cbn in Hk', Hmono |- *.
      intros Hav. apply Hmono, Hinv.
      by rewrite <- (failed_attempts_keeps_available _ _ _ _ _ Hf), <- Hk'.
  - rewrite (attempt_update_keeps_available plug rt σ). auto.
  - rewrite (turn_on_keeps_self plug σ). auto.
  - rewrite (turn_off_keeps plug _available (λ _ _, eq_refl) σ). auto.
  - done.
Qed.

(** X6: whenever the entity reports itself available, [is_on] is a
    boolean, never [None]: this holds for a fresh entity after every
    sequence of refreshes, attempts and commands, with the outside world
    changing in between. *)
Theorem available_knows_state ops w :
  available (self (run plug rt ops (start w))) = true →
  is_Some (is_on (self (run plug rt ops (start w)))).
Proof.
  unfold available, is_on.
  assert (_available (self (start w)) = true
          → is_Some (_state (self (start w)))) as Hinit by done.
  revert Hinit. generalize (start w).
  induction ops as [|o ops IH]; intros σ Hinv; [done|].
  rewrite run_cons. apply IH. by apply run_op_available_known.
Qed.

(** *** The identity the host reads *)

Lemma run_keeps_identity ops σ :
  truthy (_sysinfo (self σ)) = true →
  identity (self (run plug rt ops σ)) = identity (self σ).
Proof.
  revert σ. induction ops as [|o ops IH]; intros σ Hres; [done|].
  rewrite run_cons.
  pose proof (run_op_keeps_identity plug rt o σ Hres) as Ho.
  rewrite IH, Ho; [done|].
  change (_sysinfo (self (run_op plug rt o σ)))
    with (identity (self (run_op plug rt o σ))).1.1.1.1.1.
  by rewrite Ho.
Qed.

Lemma device_info_identity C en en' :
  identity en' = identity en → device_info C en' = device_info C en.
Proof.
  unfold identity, device_info. intros [= Hs _ Hm Hmd Ha _].
  by rewrite Hs, Hm, Hmd, Ha.
Qed.

(** X7: once [device_info] returns a value it returns that same value
    after every sequence of refreshes, attempts and commands, with the
    outside world changing in between: name, model, connections and
    firmware version are never refreshed from the device. *)
Theorem device_info_stable C ops σ d :
  device_info C (self σ) = Ok d →
  device_info C (self (run plug rt ops σ)) = Ok d.
Proof.
  intros Hd. rewrite <- Hd. apply device_info_identity, run_keeps_identity.
  unfold device_info, getitem in Hd.
  destruct (_sysinfo (self σ)) as [| | | | | |items]; try done.
  by destruct items.
Qed.

Lemma run_op_unreachable_identity o σ :
  unreachable plug →
  truthy (_sysinfo (self σ)) = false →
  identity (self (run_op plug rt o σ)) = identity (self σ).
Proof.
  intros Hun Hfalsy. destruct o; cbn [run_op].
  - unfold async_update, MAX_ATTEMPTS.
    destruct (update_loop_unreachable 19 σ Hun Hfalsy) as (σ' & -> & Hs).
    cbn. by rewrite Hs.
  - by destruct (attempt_update_unreachable σ Hun Hfalsy)
      as (e & w & _ & _ & ->).
  - by rewrite (turn_on_keeps_self plug σ).
  - by apply (turn_off_keeps plug identity).
  - done.
Qed.

(** X8: as long as no [sys_info] query has reached the device, the
    entity stays unresolved whatever the host calls: [unique_id] and
    [name] are [None], and reading [device_info] raises [TypeError]
    (it subscripts the [None] held by [_sysinfo]). *)
Theorem unresolved_entity C ops w :
  unreachable plug →
  unique_id (self (run plug rt ops (start w))) = PNone
  ∧ name (self (run plug rt ops (start w))) = PNone
  ∧ device_info C (self (run plug rt ops (start w))) = Raise TypeError.
Proof.
  intros Hun.
  assert (identity (self (run plug rt ops (start w))) = identity init) as Hid.
  { change init with (self (start w)).
    assert (truthy (_sysinfo (self (start w))) = false) as Hfalsy by done.
    revert Hfalsy. generalize (start w).
    induction ops as [|o ops IH]; intros σ Hfalsy; [done|].
    rewrite run_cons.
    pose proof (run_op_unreachable_identity o σ Hun Hfalsy) as Ho.
    rewrite IH, Ho; [done|].
    change (_sysinfo (self (run_op plug rt o σ)))
      with (identity (self (run_op plug rt o σ))).1.1.1.1.1.
    by rewrite Ho. }
  split; [exact (f_equal snd Hid)|].
  split; [exact (f_equal (λ i, i.1.2) Hid)|].
  by rewrite (device_info_identity C _ _ Hid).
Qed.

(** X9: a resolution that is interrupted is never resumed.  When the
    first [sys_info] answer (a non-empty object) has been stored and the
    next query, the hardware address, fails with a device or I/O error,
    the attempt returns as a failed one with [_sysinfo] and [_host] set;
    from then on the guard [if not self._sysinfo] skips the resolution,
    so the hardware address, the model, the alias and the unique id keep
    the values they had before, over every later sequence of refreshes,
    attempts and commands. *)
Theorem interrupted_resolution σ info w1 e w2 ops :
  truthy (_sysinfo (self σ)) = false →
  SmartPlug.sys_info plug (world σ) = (Ok info, w1) →
  truthy info = true →
  SmartPlug.mac plug w1 = (Raise e, w2) →
  recoverable e = true →
  (attempt_update plug rt σ).1 = Ok tt
  ∧ _is_ready (self (attempt_update plug rt σ).2) = _is_ready (self σ)
  ∧ identity (self (run plug rt ops (attempt_update plug rt σ).2))
    = (info, PStr (SmartPlug.host plug), _mac (self σ), _model (self σ),
       _alias (self σ), _device_id (self σ)).
Proof.
  intros Hfalsy Hs Hinfo Hmac He.
  assert (attempt_body plug rt σ =
          (Raise e, with_world w2
                      (with_self (set_host (PStr (SmartPlug.host plug)))
                         (with_self (set_sysinfo info) (with_world w1 σ)))))
    as Hb.
  { unfold attempt_body, bind at 1, get. rewrite Hfalsy.
    apply bind_raise. unfold resolve_identity.
    unfold bind at 1, call at 1. rewrite Hs.
    unfold bind at 1, modify at 1. unfold bind at 1, modify at 1.
    apply bind_raise. unfold call. cbn [world with_self with_world].
    by rewrite Hmac. }
  rewrite attempt_update_of_body, Hb, He. cbn [fst snd].
  split; [done|]. split; [done|].
  by rewrite run_keeps_identity.
Qed.

(** *** The lookup of the addressed outlet *)

Lemma next_child_sound ctx items c :
  next_child ctx items = Ok c →
  ∃ pre post i,
    items = (pre ++ c :: post)%list
    ∧ getitem c "id" = Ok i
    ∧ py_eq_context i ctx = true
    ∧ Forall (λ x, ∃ j, getitem x "id" = Ok j
                        ∧ py_eq_context j ctx = false) pre.
Proof.
  induction items as [|x items IH]; [done|]. cbn [next_child].
  destruct (getitem x "id") as [j|e|] eqn:Hj; [|done..].
  destruct (py_eq_context j ctx) eqn:Heq.
  - intros [= ->]. by exists [], items, j.
  - intros Hn. destruct (IH Hn) as (pre & post & i & -> & Hi & Hm & Hpre).
    exists (x :: pre), post, i. repeat split; [done..|].
    constructor; [by exists j|done].
Qed.

Lemma next_child_stop ctx items :
  next_child ctx items = Raise StopIteration
  ↔ Forall (λ x, ∃ j, getitem x "id" = Ok j
                      ∧ py_eq_context j ctx = false) items.
Proof.
  induction items as [|x items IH]; cbn [next_child].
  - split; [by constructor|done].
  - destruct (getitem x "id") as [j|e|] eqn:Hj.
    + destruct (py_eq_context j ctx) eqn:Heq.
      * split; [done|]. intros H. apply Forall_cons in H as [(j' & Hj' & Hne) _].
        congruence.
      * rewrite IH. split.
        -- intros H. constructor; [by exists j|done].
        -- intros H. by apply Forall_cons in H as [_ H].
    + split.
      * intros [= ->]. by destruct x as [| | | | | |d];
          [..|cbn in Hj; destruct (assoc "id" d)].
      * intros H. apply Forall_cons in H as [(j' & Hj' & _) _]. congruence.
    + split; [done|].
      intros H. apply Forall_cons in H as [(j' & Hj' & _) _]. congruence.
Qed.

(** X10: [_plug_from_context] returns only a record of the children list
    of the [sys_info] answer whose id equals the context, namely the first
    such record, and it changes nothing in the entity.  The lookup itself
    ends in [StopIteration] exactly when every record has a readable id
    and none equals the context. *)
Theorem plug_from_context_sound σ :
  (∀ c σ',
     _plug_from_context plug σ = (Ok c, σ') →
     self σ' = self σ
     ∧ ∃ info children items pre post i,
         SmartPlug.sys_info plug (world σ) = (Ok info, world σ')
         ∧ getitem info "children" = Ok children
         ∧ py_iter children = Ok items
         ∧ items = (pre ++ c :: post)%list
         ∧ getitem c "id" = Ok i
         ∧ py_eq_context i (SmartPlug.context plug) = true
         ∧ Forall (λ x, ∃ j, getitem x "id" = Ok j
                     ∧ py_eq_context j (SmartPlug.context plug) = false) pre)
  ∧ (∀ items,
       next_child (SmartPlug.context plug) items = Raise StopIteration
       ↔ Forall (λ x, ∃ j, getitem x "id" = Ok j
                   ∧ py_eq_context j (SmartPlug.context plug) = false) items).
Proof.
  split; [|intros items; apply next_child_stop].
  intros c σ' Hp.
  pose proof (_plug_from_context_keeps_self plug σ) as Hself.
  rewrite Hp in Hself. split; [exact Hself|].
  rewrite _plug_from_context_eq in Hp.
  destruct (SmartPlug.sys_info plug (world σ)) as [[info|e|] w]; [|done..].
  injection Hp as Hc <-. unfold child_of in Hc.
  destruct (getitem info "children") as [children|e|] eqn:Hch; [|done..].
  destruct (py_iter children) as [items|e|] eqn:Hit; [|done..].
  destruct (next_child_sound _ _ _ Hc) as (pre & post & i & ? & ? & ? & ?).
  by exists info, children, items, pre, post, i.
Qed.

(** *** A command that fails *)

(** X11: a [turn_off] that raises, in the command or in the reading that
    follows it, has assigned nothing and logged nothing: the cached
    [is_on] is the one from before the call even when the device did
    switch. *)
Theorem turn_off_raise_keeps_cache σ e σ' :
  turn_off plug σ = (Raise e, σ') →
  self σ' = self σ ∧ trace σ' = trace σ.
Proof.
  intros Hr. split.
  - revert Hr. apply (keeps_on_raise_bind (W:=W) self); [frame|].
    intros _. apply update_state_raise_keeps_self.
  - pose proof (turn_off_keeps_trace plug σ) as Ht. by rewrite Hr in Ht.
Qed.

(** *** The first successful attempt *)

(** X12: the attempt that first succeeds on an unresolved entity leaves
    it with a complete identity, made of what the client returned in
    that attempt: [_sysinfo] is the answer of the [sys_info] query,
    [_host] is the client's host, the hardware address and the model are
    the strings the [mac] and [model] queries returned, in that order of
    calls; [unique_id] is the context id when an outlet of a strip is
    addressed and the hardware address otherwise; [name] is the alias
    the client returned, or for an outlet of a strip the alias of its
    record in a second [sys_info] answer. *)
Theorem first_success_identity σ σ' :
  truthy (_sysinfo (self σ)) = false →
  _is_ready (self σ) = false →
  attempt_update plug rt σ = (Ok tt, σ') →
  _is_ready (self σ') = true →
  ∃ info w1 m w2 md w3,
    SmartPlug.sys_info plug (world σ) = (Ok info, w1)
    ∧ SmartPlug.mac plug w1 = (Ok m, w2)
    ∧ SmartPlug.model plug w2 = (Ok md, w3)
    ∧ _sysinfo (self σ') = info
    ∧ _host (self σ') = PStr (SmartPlug.host plug)
    ∧ _mac (self σ') = PStr m
    ∧ _model (self σ') = PStr md
    ∧ unique_id (self σ')
      = match SmartPlug.context plug with
        | Some c => PStr c
        | None => PStr m
        end
    ∧ match SmartPlug.context plug with
      | None => ∃ al w4, SmartPlug.alias plug w3 = (Ok al, w4)
                         ∧ name (self σ') = PStr al
      | Some _ => ∃ info' w4 child,
                    SmartPlug.sys_info plug w3 = (Ok info', w4)
                    ∧ child_of plug info' = Ok child
                    ∧ getitem child "alias" = Ok (name (self σ'))
      end.
Proof. apply first_success_resolves. Qed.

(** *** The readings of a metering device *)

(** X13: when the realtime reading and the daily history are delivered
    and the five attribute names are pairwise different, the metering
    steps return and leave each reading under its own name with its own
    precision: power with 2 decimals, total energy with 3, voltage with
    1, current with 2, and today's energy with 3 when the history has an
    entry for the day (otherwise today's field is as before).  Every other
    state attribute is as before, and nothing is logged. *)
Theorem update_emeter_stores σ readings w1 p t v c statics w2 :
  NoDup (realtime_keys rt ++ [ATTR_TODAY_ENERGY_KWH rt])%list →
  SmartPlug.get_emeter_realtime plug (world σ) = (Ok readings, w1) →
  readings "power" = Ok p →
  readings "total" = Ok t →
  readings "voltage" = Ok v →
  readings "current" = Ok c →
  SmartPlug.get_emeter_daily plug w1 = (Ok statics, w2) →
  ∃ σ', update_emeter plug rt σ = (Ok tt, σ')
    ∧ world σ' = w2
    ∧ trace σ' = trace σ
    ∧ device_state_attributes (self σ') !! ATTR_CURRENT_POWER_W rt
      = Some (format_f rt 2 p)
    ∧ device_state_attributes (self σ') !! ATTR_TOTAL_ENERGY_KWH
      = Some (format_f rt 3 t)
    ∧ device_state_attributes (self σ') !! ATTR_VOLTAGE rt
      = Some (format_f rt 1 v)
    ∧ device_state_attributes (self σ') !! ATTR_CURRENT_A
      = Some (format_f rt 2 c)
    ∧ device_state_attributes (self σ') !! ATTR_TODAY_ENERGY_KWH rt
      = match statics !! day_of_month rt w2 with
        | Some x => Some (format_f rt 3 x)
        | None => device_state_attributes (self σ) !! ATTR_TODAY_ENERGY_KWH rt
        end
    ∧ ∀ k, k ∉ (realtime_keys rt ++ [ATTR_TODAY_ENERGY_KWH rt])%list →
           device_state_attributes (self σ') !! k
           = device_state_attributes (self σ) !! k.
Proof.
  intros Hnd Hreal Hp Ht Hv Hc Hdaily.
  unfold realtime_keys in *. cbn [app] in *.
  repeat (apply NoDup_cons in Hnd as [? Hnd]).
  repeat match goal with
         | H : _ ∉ _ :: _ |- _ => apply not_elem_of_cons in H as [? ?]
         end.
  unfold update_emeter, store_reading, store_today, try_except, bind, call,
    lift, modify, observe, ret.
  rewrite Hreal, Hp, Ht, Hv, Hc. cbn [world with_self with_world].
  rewrite Hdaily. cbn [world with_self with_world].
  unfold device_state_attributes.
  destruct (statics !! day_of_month rt w2) as [x|];
    (eexists; split; [reflexivity|]); cbn;
    repeat split; try (by simplify_map_eq);
    intros k Hk; repeat (apply not_elem_of_cons in Hk as [? Hk]);
    by simplify_map_eq.
Qed.
End MoreProperties.

(** *** The sample devices at work *)

(** C1, counterexample: outlet "99" is not in the children the strip
    reports.  The attempt raises [StopIteration] past the handler and
    writes no log line: the failure is neither caught nor turned into a
    failed attempt, and the refresh never completes.  Addressing an
    outlet of a device that reports no children at all raises [KeyError]
    out of the attempt and out of the refresh. *)
Lemma child_lookup_failure_escapes :
  (attempt_update strip_99 sample_runtime (fresh 0)).1 = Raise StopIteration
  ∧ trace (attempt_update strip_99 sample_runtime (fresh 0)).2 = []
  ∧ (async_update strip_99 sample_runtime (fresh 0)).1 = Hang
  ∧ (attempt_update no_strip_80 sample_runtime (fresh 0)).1 = Raise KeyError
  ∧ (async_update no_strip_80 sample_runtime (fresh 0)).1 = Raise KeyError
  ∧ trace (async_update no_strip_80 sample_runtime (fresh 0)).2 = [].
Proof. vm_compute. done. Qed.

(** C1, witness: on the 18th the entity of the day before, which is
    ready, meets one failing state query: the attempt of the refresh
    returns, logs the retry and leaves [_is_ready] unset.  The lookup of
    outlet "99" ends the refresh without a result, and the lookup of an
    outlet on a device without children raises [KeyError] out of it. *)
Lemma recoverable_errors_are_caught_witness :
  _is_ready (self next_day) = true
  ∧ (one_attempt hs110 sample_runtime (with_world (1%nat, 18) next_day) =
       (Ok tt,
        with_event (Warning (Retrying 2 "192.168.0.7" (PStr "Kettle") OSError))
          (attempt_body hs110 sample_runtime
             (with_self (set_is_ready false)
                (with_world (1%nat, 18) next_day))).2)
     ∧ _is_ready (self (one_attempt hs110 sample_runtime
                          (with_world (1%nat, 18) next_day)).2) = false)
  ∧ async_update strip_99 sample_runtime (fresh 0)
    = (Hang, (attempt_body strip_99 sample_runtime
                (with_self (set_is_ready false) (fresh 0))).2)
  ∧ async_update no_strip_80 sample_runtime (fresh 0)
    = (Raise KeyError,
       (attempt_body no_strip_80 sample_runtime
          (with_self (set_is_ready false) (fresh 0))).2).
Proof.
  split; [reflexivity|]. split; [|split].
  - apply (proj1 (proj2 (proj2 (proj2
             (recoverable_errors_are_caught hs110 sample_runtime
                (with_world (1%nat, 18) next_day)))))
             OSError).
    + vm_compute. reflexivity.
    + reflexivity.
  - apply (proj2 (proj2 (proj2 (proj2 (proj2
             (recoverable_errors_are_caught strip_99 sample_runtime
                (fresh 0))))))
             0%nat (fresh 0) StopIteration).
    + unfold MAX_ATTEMPTS. lia.
    + reflexivity.
    + vm_compute. reflexivity.
    + reflexivity.
  - apply (proj2 (proj2 (proj2 (proj2 (proj2
             (recoverable_errors_are_caught no_strip_80 sample_runtime
                (fresh 0))))))
             0%nat (fresh 0) KeyError).
    + unfold MAX_ATTEMPTS. lia.
    + reflexivity.
    + vm_compute. reflexivity.
    + reflexivity.
Defined.

(** C2, witness: nineteen state queries fail, the twentieth attempt
    succeeds, and the refresh ends available. *)
Lemma async_update_availability_witness :
  async_update hs100 sample_runtime (fresh 19) =
    (Ok tt,
     with_self (set_available true)
       (one_attempt hs100 sample_runtime
          (after_failures hs100 19 (fresh 19))).2)
  ∧ _available (self (async_update hs100 sample_runtime (fresh 19)).2) = true.
Proof.
  apply (proj1 (async_update_availability hs100 sample_runtime (fresh 19))
           19%nat (after_failures hs100 19 (fresh 19))).
  - unfold MAX_ATTEMPTS. lia.
  - vm_compute. reflexivity.
  - vm_compute. reflexivity.
  - vm_compute. reflexivity.
Defined.

Lemma unplugged_offline p : offline (unplugged p).
Proof. intros w. split; by exists OSError, w. Qed.

(** C10, counterexample: the outlet is on and well on the 17th, and the
    entity is available with [is_on] true.  On the 18th it is off and its
    realtime reading fails: every attempt of the refresh reads the new
    on/off state and then fails.  The refresh exhausts its attempts and
    ends unavailable, and [is_on] is no longer the value from before the
    refresh. *)
Lemma exhausted_refresh_changes_is_on :
  available (self faded) = true
  ∧ is_on (self faded) = Some true
  ∧ is_Some (failed_attempts fading sample_runtime MAX_ATTEMPTS faded)
  ∧ (async_update fading sample_runtime faded).1 = Ok tt
  ∧ available (self (async_update fading sample_runtime faded).2) = false
  ∧ is_on (self (async_update fading sample_runtime faded).2) = Some false.
Proof.
  split; [vm_compute; reflexivity|]. split; [vm_compute; reflexivity|].
  split; [eexists; vm_compute; reflexivity|].
  vm_compute. done.
Qed.

(** C10, witness: the metered outlet, refreshed on the 17th, is unplugged
    on the 18th.  The refresh gives up; the entity, which was available
    and on, is unavailable and the host still reads the identity, the
    on/off state and the readings of the day before. *)
Lemma exhausted_refresh_keeps_snapshot_witness :
  available (self next_day) = true
  ∧ is_on (self next_day) = Some true
  ∧ device_state_attributes (self next_day) !! "voltage" = Some "120.1"
  ∧ ∃ σn σ',
      failed_attempts (unplugged hs110) sample_runtime MAX_ATTEMPTS next_day
      = Some σn
      ∧ async_update (unplugged hs110) sample_runtime next_day = (Ok tt, σ')
      ∧ available (self σ') = false
      ∧ identity (self σ') = identity (self next_day)
      ∧ is_on (self σ') = is_on (self next_day)
      ∧ device_state_attributes (self σ')
        = device_state_attributes (self next_day).
Proof.
  split; [reflexivity|]. split; [reflexivity|].
  split; [vm_compute; reflexivity|].
  apply (proj2 (exhausted_refresh_keeps_snapshot (unplugged hs110)
                  sample_runtime next_day)).
  apply unplugged_offline.
Defined.

(** C3, counterexample: the realtime reading of the metered outlet fails
    with an I/O error after the on/off state was read.  The attempt is a
    failed one (it returns not ready, with the retry logged), and yet the
    cached [_state] has gone from [None] to [Some true].  When it is the
    daily history that fails, the four realtime entries written before
    it stay in the state attributes as well. *)
Lemma failed_attempt_leaves_partial_update :
  attempt_update hs110_meter_down sample_runtime (fresh 0)
  = (Ok tt, (attempt_update hs110_meter_down sample_runtime (fresh 0)).2)
  ∧ _is_ready (self (attempt_update hs110_meter_down sample_runtime
                       (fresh 0)).2) = false
  ∧ trace (attempt_update hs110_meter_down sample_runtime (fresh 0)).2
    = [Warning (Retrying 2 "192.168.0.7" (PStr "Kettle") OSError)]
  ∧ _state (self (fresh 0)) = None
  ∧ _state (self (attempt_update hs110_meter_down sample_runtime
                    (fresh 0)).2) = Some true
  ∧ _is_ready (self (attempt_update hs110_history_down sample_runtime
                       (fresh 0)).2) = false
  ∧ _emeter_params (self (fresh 0)) !! "current_power_w" = None
  ∧ _emeter_params (self (attempt_update hs110_history_down sample_runtime
                            (fresh 0)).2) !! "current_power_w"
    = Some "12.34".
Proof. vm_compute. done. Qed.

(** C3, witness: on the 18th the attempt keeps the on/off state it has
    just read; when the state query fails instead, the state attributes
    of the day before are untouched.  A reading that has the power only
    leaves the power stored when the total cannot be read, and a daily
    history that fails leaves the four realtime readings stored. *)
Lemma failed_attempt_snapshot_witness :
  _state (self (attempt_update hs110 sample_runtime next_day).2)
  = _state (self next_day)
  ∧ _emeter_params (self (attempt_update hs110 sample_runtime
                            (with_world (1%nat, 18) next_day)).2)
    = _emeter_params (self next_day)
  ∧ (attempt_update hs110_power_only sample_runtime (fresh 0)).1 = Ok tt
  ∧ _is_ready (self (attempt_update hs110_power_only sample_runtime
                       (fresh 0)).2) = false
  ∧ device_state_attributes
      (self (attempt_update hs110_power_only sample_runtime (fresh 0)).2)
    = store_slots sample_runtime power_only
        [("current_power_w", 2%nat, "power")]
        (device_state_attributes (self (fresh 0)))
  ∧ device_state_attributes
      (self (attempt_update hs110_history_down sample_runtime (fresh 0)).2)
    = store_slots sample_runtime sample_readings
        (reading_slots sample_runtime)
        (device_state_attributes (self (fresh 0))).
Proof.
  split; [|split; [|split; [reflexivity|split; [reflexivity|split]]]].
  - apply (proj1 (proj2 (failed_attempt_snapshot hs110 sample_runtime
                           next_day))
             (refresh_state hs110 next_day).2).
    vm_compute. reflexivity.
  - apply (proj1 (failed_attempt_snapshot hs110 sample_runtime
                    (with_world (1%nat, 18) next_day))
             OSError
             (refresh_state hs110 (with_world (1%nat, 18) next_day)).2).
    vm_compute. reflexivity.
  - apply (proj1 (proj2 (proj2 (proj2 (proj2
             (failed_attempt_snapshot hs110_power_only sample_runtime
                (fresh 0))))))
             (refresh_state hs110_power_only (fresh 0)).2
             (0%nat, 17) power_only (0%nat, 17)
             [("current_power_w", 2%nat, "power")]
             ("total_energy_kwh", 3%nat, "total")
             [("voltage", 1%nat, "voltage"); ("current_a", 2%nat, "current")]).
    + vm_compute. reflexivity.
    + reflexivity.
    + reflexivity.
    + reflexivity.
    + repeat constructor.
    + reflexivity.
  - apply (proj2 (proj2 (proj2 (proj2 (proj2
             (failed_attempt_snapshot hs110_history_down sample_runtime
                (fresh 0))))))
             (refresh_state hs110_history_down (fresh 0)).2
             (0%nat, 17) sample_readings (0%nat, 17)).
    + vm_compute. reflexivity.
    + reflexivity.
    + reflexivity.
    + repeat constructor.
    + reflexivity.
Defined.

(** C4, counterexample: the device answers [sys_info] with an empty
    object.  The first refresh succeeds and resolves the identity: the
    entity is available and has a name and a unique id.  The attempt of
    the next day, when another device answers at the address, resolves
    the identity again and overwrites both. *)
Lemma identity_overwritten_after_empty_answer :
  available (self (run (renamed (PDict [])) sample_runtime [Refresh]
                     (fresh 0))) = true
  ∧ name (self (run (renamed (PDict [])) sample_runtime [Refresh]
                  (fresh 0))) = PStr "Kettle"
  ∧ unique_id (self (run (renamed (PDict [])) sample_runtime [Refresh]
                       (fresh 0))) = PStr "50:C7:BF:00:00:01"
  ∧ name (self (run (renamed (PDict [])) sample_runtime
                  [Refresh; Elapse (0%nat, 18); Attempt] (fresh 0)))
    = PStr "Toaster"
  ∧ unique_id (self (run (renamed (PDict [])) sample_runtime
                       [Refresh; Elapse (0%nat, 18); Attempt] (fresh 0)))
    = PStr "50:C7:BF:00:00:02".
Proof. vm_compute. done. Qed.

(** C4, witness: the same address answers [sys_info] with a non-empty
    object.  The entity resolved on the 17th keeps its identity, name
    and unique id through the refreshes, attempts and commands of the
    18th, when the device reports another alias and hardware address.
    With the empty answer, the attempt of the 18th gives the entity,
    whose unique id was the hardware address of the 17th, the one of the
    18th. *)
Lemma identity_never_overwritten_witness :
  unique_id (self renamed_stale) = PStr "50:C7:BF:00:00:01"
  ∧ unique_id (self (attempt_update (renamed (PDict [])) sample_runtime
                       renamed_stale).2) = PStr "50:C7:BF:00:00:02"
  ∧ SmartPlug.alias (renamed hs110_info) (0%nat, 18)
    = (Ok "Toaster", (0%nat, 18))
  ∧ name (self (run (renamed hs110_info) sample_runtime [Refresh] (fresh 0)))
    = PStr "Kettle"
  ∧ identity (self (run (renamed hs110_info) sample_runtime
                      [Elapse (0%nat, 18); Refresh; Attempt; TurnOff; TurnOn]
                      (run (renamed hs110_info) sample_runtime [Refresh]
                         (fresh 0))))
    = identity (self (run (renamed hs110_info) sample_runtime [Refresh]
                        (fresh 0)))
  ∧ unique_id (self (run (renamed hs110_info) sample_runtime
                       [Elapse (0%nat, 18); Refresh; Attempt; TurnOff; TurnOn]
                       (run (renamed hs110_info) sample_runtime [Refresh]
                          (fresh 0))))
    = unique_id (self (run (renamed hs110_info) sample_runtime [Refresh]
                         (fresh 0)))
  ∧ name (self (run (renamed hs110_info) sample_runtime
                  [Elapse (0%nat, 18); Refresh; Attempt; TurnOff; TurnOn]
                  (run (renamed hs110_info) sample_runtime [Refresh]
                     (fresh 0))))
    = name (self (run (renamed hs110_info) sample_runtime [Refresh]
                    (fresh 0))).
Proof.
  split; [vm_compute; reflexivity|]. split.
  { assert (attempt_update (renamed (PDict [])) sample_runtime renamed_stale
            = (Ok tt, (attempt_update (renamed (PDict [])) sample_runtime
                         renamed_stale).2)) as Hrun
      by (vm_compute; reflexivity).
    destruct (proj2 (identity_never_overwritten (renamed (PDict []))
                       sample_runtime [] renamed_stale)
                eq_refl _ eq_refl Hrun eq_refl)
      as (info & w1 & m & w2 & md & w3 & Hs & Hm & _ & _ & _ & _ & _ & Hu & _).
    injection Hs as _ <-. injection Hm as <- _. exact Hu. }
  split; [reflexivity|]. split; [vm_compute; reflexivity|].
  apply (proj1 (identity_never_overwritten (renamed hs110_info)
                  sample_runtime
                  [Elapse (0%nat, 18); Refresh; Attempt; TurnOff; TurnOn]
                  (run (renamed hs110_info) sample_runtime [Refresh]
                     (fresh 0)))).
  vm_compute. reflexivity.
Defined.


(** C7, witness: the outlet without metering. *)
Lemma no_emeter_keeps_params_empty_witness :
  device_state_attributes
    (self (run hs100 sample_runtime
             [Refresh; TurnOff; Elapse (25%nat, 18); Refresh; TurnOn; Attempt]
             (start (2%nat, 17)))) = ∅.
Proof.
  apply (no_emeter_keeps_params_empty hs100 sample_runtime).
  intros w b w' H. by injection H as <- _.
Defined.

(** C8, witness: the lamp is on and the entity knows it; switching it
    off makes the relay open, and the reading that follows the command
    leaves [is_on] false at once. *)
Lemma turn_off_rederives_state_witness :
  is_on (self lamp_on) = Some true
  ∧ (turn_off relay lamp_on).1 = Ok tt
  ∧ world (turn_off relay lamp_on).2 = false
  ∧ is_on (self (turn_off relay lamp_on).2) = Some false.
Proof.
  split; [vm_compute; reflexivity|].
  destruct (proj1 (proj2 (proj2 (proj2 (proj2
              (turn_off_rederives_state relay lamp_on)))))
              false "OFF" false eq_refl eq_refl eq_refl)
    as (Hret & Hworld & _ & Hfalse).
  split; [exact Hret|]. split; [exact Hworld|].
  apply Hfalse. intros H. discriminate H.
Defined.

(** C6, counterexample: the outlet is refreshed on the 17th, when its
    history has today's entry, and again on the 18th, when it has none.
    The second refresh succeeds and today's field is still there, with
    the value of the day before. *)
Lemma stale_today_entry_survives :
  SmartPlug.get_emeter_daily hs110 (world next_day)
  = (Ok {[ 17 := "0.456" ]}, world next_day)
  ∧ ({[ 17 := "0.456" ]} : gmap Z string)
      !! day_of_month sample_runtime (world next_day) = None
  ∧ (async_update hs110 sample_runtime next_day).1 = Ok tt
  ∧ _is_ready (self (async_update hs110 sample_runtime next_day).2) = true
  ∧ available (self (async_update hs110 sample_runtime next_day).2) = true
  ∧ device_state_attributes
      (self (async_update hs110 sample_runtime next_day).2)
      !! "today_energy_kwh" = Some "0.456".
Proof. vm_compute. done. Qed.

Lemma steady_no_history_responsive : responsive (steady hs110_no_history).
Proof.
  split; done.
Qed.

(** C6, witness: the entity of the day before against an outlet whose
    history is empty. *)
Lemma missing_today_entry_witness :
  _emeter_params
    (self (attempt_update (steady hs110_no_history) sample_runtime
             next_day).2) !! "today_energy_kwh"
  = _emeter_params (self next_day) !! "today_energy_kwh"
  ∧ ∃ σ', attempt_update (steady hs110_no_history) sample_runtime next_day
          = (Ok tt, σ')
          ∧ _is_ready (self σ') = true
          ∧ trace σ' = trace next_day.
Proof.
  assert (ATTR_TODAY_ENERGY_KWH sample_runtime ∉ realtime_keys sample_runtime)
    as Hfresh.
  { apply (bool_decide_unpack _). vm_compute. exact I. }
  assert (no_today_entry (steady hs110_no_history) sample_runtime) as Hnone.
  { intros w statics w' H. injection H as <- _. reflexivity. }
  pose proof (missing_today_entry (steady hs110_no_history) sample_runtime
                Hfresh Hnone next_day) as (_ & Hattempt & _ & Hok).
  split; [exact Hattempt | exact (Hok steady_no_history_responsive)].
Defined.

(** X1, witness: two state queries fail, the third attempt succeeds. *)
Lemma refresh_log_witness :
  ∃ l, Forall (λ ae : pyval * exn, recoverable ae.2 = true) l
    ∧ ((length l < MAX_ATTEMPTS)%nat
        ∧ _available (self (async_update hs100 sample_runtime (fresh 2)).2)
          = true
        ∧ trace (async_update hs100 sample_runtime (fresh 2)).2
          = (trace (fresh 2) ++ retry_events (SmartPlug.host hs100) l)%list
       ∨ length l = MAX_ATTEMPTS
        ∧ _available (self (async_update hs100 sample_runtime (fresh 2)).2)
          = false
        ∧ trace (async_update hs100 sample_runtime (fresh 2)).2
          = (trace (fresh 2) ++ retry_events (SmartPlug.host hs100) l ++
             if _available (self (fresh 2))
             then [Warning
                     (CouldNotRead
                        (_host (self (async_update hs100 sample_runtime
                                        (fresh 2)).2))
                        (_alias (self (async_update hs100 sample_runtime
                                         (fresh 2)).2)))]
             else [])%list).
Proof.
  apply (refresh_log hs100 sample_runtime (fresh 2)).
  vm_compute. reflexivity.
Defined.

(** X3, witness: the steady outlet. *)
Lemma responsive_refresh_witness :
  ∃ σ', async_update (steady hs110_no_history) sample_runtime next_day
        = (Ok tt, σ')
        ∧ available (self σ') = true
        ∧ _is_ready (self σ') = true
        ∧ trace σ' = trace next_day.
Proof.
  apply (responsive_refresh (steady hs110_no_history) sample_runtime).
  exact steady_no_history_responsive.
Defined.

Lemma unplugged_unreachable p : unreachable (unplugged p).
Proof. intros w. by exists OSError, w. Qed.

(** X4, witness: the outlet is unplugged before its first refresh. *)
Lemma unreachable_refresh_witness :
  ∃ σ', async_update (unplugged hs110) sample_runtime (fresh 0) = (Ok tt, σ')
        ∧ self σ' = set_available false (set_is_ready false (self (fresh 0))).
Proof.
  apply (unreachable_refresh (unplugged hs110) sample_runtime).
  - apply unplugged_unreachable.
  - reflexivity.
Defined.

(** X6, witness: the metered outlet, refreshed then switched off. *)
Lemma available_knows_state_witness :
  is_Some (is_on (self (run hs110 sample_runtime [Refresh; TurnOff]
                          (start (0%nat, 17))))).
Proof.
  apply (available_knows_state hs110 sample_runtime).
  vm_compute. reflexivity.
Defined.

(** X7, witness: the device information of the metered outlet, read on
    the 18th and again after more refreshes and commands. *)
Lemma device_info_stable_witness :
  device_info "mac"
    (self (run hs110 sample_runtime
             [TurnOff; Elapse (30%nat, 19); Refresh; Attempt] next_day))
  = Ok {| info_name := PStr "Kettle";
          info_model := PStr "HS110(EU)";
          info_manufacturer := "TP-Link";
          info_connections := [("mac", PStr "50:C7:BF:00:00:01")];
          info_sw_version := PStr "1.2.5" |}.
Proof.
  apply (device_info_stable hs110 sample_runtime).
  vm_compute. reflexivity.
Defined.

(** X8, witness: the unplugged outlet through refreshes and commands. *)
Lemma unresolved_entity_witness :
  unique_id (self (run (unplugged hs110) sample_runtime
                     [Refresh; TurnOn; Refresh] (start (0%nat, 17)))) = PNone
  ∧ name (self (run (unplugged hs110) sample_runtime
                  [Refresh; TurnOn; Refresh] (start (0%nat, 17)))) = PNone
  ∧ device_info "mac"
      (self (run (unplugged hs110) sample_runtime
               [Refresh; TurnOn; Refresh] (start (0%nat, 17))))
    = Raise TypeError.
Proof.
  apply (unresolved_entity (unplugged hs110) sample_runtime).
  apply unplugged_unreachable.
Defined.

(** X9, witness: the hardware address fails once, right after the first
    [sys_info] answer.  The next refresh succeeds, and the entity is then
    available with no hardware address, alias or unique id. *)
Lemma interrupted_resolution_witness :
  (attempt_update (mac_flaky hs110) sample_runtime (fresh 1)).1 = Ok tt
  ∧ _is_ready (self (attempt_update (mac_flaky hs110) sample_runtime
                       (fresh 1)).2) = _is_ready (self (fresh 1))
  ∧ identity
      (self (run (mac_flaky hs110) sample_runtime [Refresh; Attempt]
               (attempt_update (mac_flaky hs110) sample_runtime (fresh 1)).2))
    = (hs110_info, PStr "192.168.0.7", PNone, PNone, PNone, PNone).
Proof.
  apply (interrupted_resolution (mac_flaky hs110) sample_runtime (fresh 1)
           hs110_info (1%nat, 17) OSError (0%nat, 17));
    reflexivity.
Defined.

(** X10, witness: the record of outlet "80" among the three of the
    strip. *)
Lemma plug_from_context_sound_witness :
  self (_plug_from_context strip_80 (fresh 0)).2 = self (fresh 0)
  ∧ ∃ info children items pre post i,
      SmartPlug.sys_info strip_80 (world (fresh 0))
      = (Ok info, world (_plug_from_context strip_80 (fresh 0)).2)
      ∧ getitem info "children" = Ok children
      ∧ py_iter children = Ok items
      ∧ items = (pre ++ outlet "80" "Heater" 1 :: post)%list
      ∧ getitem (outlet "80" "Heater" 1) "id" = Ok i
      ∧ py_eq_context i (SmartPlug.context strip_80) = true
      ∧ Forall (λ x, ∃ j, getitem x "id" = Ok j
                  ∧ py_eq_context j (SmartPlug.context strip_80) = false) pre.
Proof.
  apply (proj1 (plug_from_context_sound strip_80 (fresh 0))
           (outlet "80" "Heater" 1)).
  reflexivity.
Defined.

(** X11, witness: the outlet is switched off, but the reading that
    follows fails. *)
Lemma turn_off_raise_keeps_cache_witness :
  self (turn_off hs110 (with_world (1%nat, 18) next_day)).2 = self next_day
  ∧ trace (turn_off hs110 (with_world (1%nat, 18) next_day)).2
    = trace next_day.
Proof.
  apply (turn_off_raise_keeps_cache hs110 (with_world (1%nat, 18) next_day)
           OSError).
  vm_compute. reflexivity.
Defined.

(** X12, witness: the first attempt on outlet "80" of the strip. *)
Lemma first_success_identity_witness :
  ∃ info w1 m w2 md w3,
    SmartPlug.sys_info strip_80 (world (fresh 0)) = (Ok info, w1)
    ∧ SmartPlug.mac strip_80 w1 = (Ok m, w2)
    ∧ SmartPlug.model strip_80 w2 = (Ok md, w3)
    ∧ _sysinfo (self (attempt_update strip_80 sample_runtime (fresh 0)).2)
      = info
    ∧ _host (self (attempt_update strip_80 sample_runtime (fresh 0)).2)
      = PStr (SmartPlug.host strip_80)
    ∧ _mac (self (attempt_update strip_80 sample_runtime (fresh 0)).2)
      = PStr m
    ∧ _model (self (attempt_update strip_80 sample_runtime (fresh 0)).2)
      = PStr md
    ∧ unique_id (self (attempt_update strip_80 sample_runtime (fresh 0)).2)
      = match SmartPlug.context strip_80 with
        | Some c => PStr c
        | None => PStr m
        end
    ∧ match SmartPlug.context strip_80 with
      | None =>
          ∃ al w4, SmartPlug.alias strip_80 w3 = (Ok al, w4)
                   ∧ name (self (attempt_update strip_80 sample_runtime
                                   (fresh 0)).2) = PStr al
      | Some _ =>
          ∃ info' w4 child,
            SmartPlug.sys_info strip_80 w3 = (Ok info', w4)
            ∧ child_of strip_80 info' = Ok child
            ∧ getitem child "alias"
              = Ok (name (self (attempt_update strip_80 sample_runtime
                                  (fresh 0)).2))
      end.
Proof.
  apply (first_success_identity strip_80 sample_runtime (fresh 0)).
  - reflexivity.
  - reflexivity.
  - vm_compute. reflexivity.
  - vm_compute. reflexivity.
Defined.

(** X13, witness: the readings of the metered outlet on the 17th. *)
Lemma update_emeter_stores_witness :
  ∃ σ', update_emeter hs110 sample_runtime (fresh 0) = (Ok tt, σ')
    ∧ world σ' = (0%nat, 17)
    ∧ trace σ' = trace (fresh 0)
    ∧ device_state_attributes (self σ') !! "current_power_w" = Some "12.34"
    ∧ device_state_attributes (self σ') !! "total_energy_kwh" = Some "1.234"
    ∧ device_state_attributes (self σ') !! "voltage" = Some "120.1"
    ∧ device_state_attributes (self σ') !! "current_a" = Some "0.12"
    ∧ device_state_attributes (self σ') !! "today_energy_kwh"
      = match ({[ 17 := "0.456" ]} : gmap Z string) !! 17 with
        | Some x => Some x
        | None => device_state_attributes (self (fresh 0)) !! "today_energy_kwh"
        end
    ∧ ∀ k, k ∉ (realtime_keys sample_runtime
                 ++ [ATTR_TODAY_ENERGY_KWH sample_runtime])%list →
           device_state_attributes (self σ') !! k
           = device_state_attributes (self (fresh 0)) !! k.
Proof.
  apply (update_emeter_stores hs110 sample_runtime (fresh 0) sample_readings
           (0%nat, 17) "12.34" "1.234" "120.1" "0.12"
           {[ 17 := "0.456" ]} (0%nat, 17));
    try reflexivity.
  apply (bool_decide_unpack _). vm_compute. exact I.
Defined.

End SmartPlugSwitch.
